(** * tpp: I/Q acquisition queue and display scaler

    A shallow embedding of the parts of [iq_af.py] and [iq.py] that carry the
    acquisition/back-pressure contract and the graticule:

    - [IqAf]: the module globals of [iq_af.py], the PortAudio input callback
      [pa_callback_iqin] and the consumer side [DataInput.get_queued_data];
    - [Iq]: the transform-size clamp of [iq.py] and the [Graticule] class
      ([set_range], [make]).

    Python integers are [Z]; the byte strings handed over by PortAudio are
    [list byte]; module globals are a record that is threaded through the
    callback; [sys.exit()] and Python exceptions are explicit results. *)

From Stdlib Require Import ZArith List Bool Lia QArith.
From Stdlib Require Import Strings.Byte.
Import ListNotations.
Open Scope Z_scope.

(* ================================================================= *)
(** ** iq_af.py *)

Module IqAf.

(** [in_data]: one buffer of interleaved 16-bit samples, as bytes. *)
Definition buffer := list byte.

(** PortAudio status flag and the size of the hand-over queue. *)
Definition paInputOverflow : Z := 2.
Definition MAXQUEUELEN : Z := 32.

(** The globals of the module, "required to communicate with callback
    thread".  [cbqueue] is the content of [queue.Queue(MAXQUEUELEN)], oldest
    entry first; [queueLock] is [true] while the lock is held. *)
Record globals := mkGlobals {
  led_underrun_ct : Z;
  cbcount : Z;
  cbqueue : list buffer;
  cbskip : Z;
  cbskip_ct : Z;
  queueLock : bool;
  cbfirst : Z
}.

Definition set_led_underrun_ct (v : Z) (g : globals) : globals :=
  mkGlobals v (cbcount g) (cbqueue g) (cbskip g) (cbskip_ct g) (queueLock g) (cbfirst g).
Definition set_cbcount (v : Z) (g : globals) : globals :=
  mkGlobals (led_underrun_ct g) v (cbqueue g) (cbskip g) (cbskip_ct g) (queueLock g) (cbfirst g).
Definition set_cbqueue (v : list buffer) (g : globals) : globals :=
  mkGlobals (led_underrun_ct g) (cbcount g) v (cbskip g) (cbskip_ct g) (queueLock g) (cbfirst g).
Definition set_cbskip (v : Z) (g : globals) : globals :=
  mkGlobals (led_underrun_ct g) (cbcount g) (cbqueue g) v (cbskip_ct g) (queueLock g) (cbfirst g).
Definition set_cbskip_ct (v : Z) (g : globals) : globals :=
  mkGlobals (led_underrun_ct g) (cbcount g) (cbqueue g) (cbskip g) v (queueLock g) (cbfirst g).
Definition set_queueLock (v : bool) (g : globals) : globals :=
  mkGlobals (led_underrun_ct g) (cbcount g) (cbqueue g) (cbskip g) (cbskip_ct g) v (cbfirst g).
Definition set_cbfirst (v : Z) (g : globals) : globals :=
  mkGlobals (led_underrun_ct g) (cbcount g) (cbqueue g) (cbskip g) (cbskip_ct g) (queueLock g) v.

(** The globals as the module body leaves them; [cbskip] is assigned by
    [DataInput.Restart] from [opt.skip]. *)
Definition module_globals (skip : Z) : globals :=
  mkGlobals 0 0 [] skip 0 false 1.

(** The ways control leaves [pa_callback_iqin]:
    - [DiscardSkip]: [return (None, pa.paContinue)] out of the skip policy;
    - [DiscardFirst]: the return under "Toss out first N data";
    - [Queued]: the final return, "All OK";
    - [ExitFull]: [queue.Full] was caught, the error printed, [sys.exit()];
    - [LockWait]: [queueLock.acquire()] found the lock held and waits. *)
Inductive cb_exit := DiscardSkip | DiscardFirst | Queued | ExitFull | LockWait.

Definition cb_exit_eqb (a b : cb_exit) : bool :=
  match a, b with
  | DiscardSkip, DiscardSkip | DiscardFirst, DiscardFirst | Queued, Queued
  | ExitFull, ExitFull | LockWait, LockWait => true
  | _, _ => false
  end.

(** *** Statements over the globals, with early return *)

Inductive flow (A : Type) : Type :=
| Next (a : A)
| Leave (e : cb_exit).
Arguments Next {A} a.
Arguments Leave {A} e.

Definition cb (A : Type) : Type := globals -> flow A * globals.

Definition ret {A} (a : A) : cb A := fun g => (Next a, g).
Definition bind {A B} (m : cb A) (k : A -> cb B) : cb B :=
  fun g => match m g with
           | (Next a, g') => k a g'
           | (Leave e, g') => (Leave e, g')
           end.
Definition leave {A} (e : cb_exit) : cb A := fun g => (Leave e, g).
Definition read {A} (f : globals -> A) : cb A := fun g => (Next (f g), g).
Definition assign (f : globals -> globals) : cb unit := fun g => (Next tt, f g).
Definition when (b : bool) (m : cb unit) : cb unit := if b then m else ret tt.

Notation "x <- m ;; k" := (bind m (fun x => k))
  (at level 61, m at next level, right associativity).
Notation "m ;; k" := (bind m (fun _ => k))
  (at level 61, right associativity).

(** *** The callback *)

Definition pa_callback_iqin (in_data : buffer) (status : Z) : cb Empty_set :=
  n <- read cbcount ;;
  assign (set_cbcount (n + 1)) ;;
  when (status =? paInputOverflow) (assign (set_led_underrun_ct 1)) ;;
  (* First, are we dropping every Nth buffer? *)
  skip <- read cbskip ;;
  ct <- read cbskip_ct ;;
  when (0 <? skip)
       (if skip <=? ct
        then assign (set_cbskip_ct 0) ;; leave DiscardSkip
        else assign (set_cbskip_ct (ct + 1))) ;;
  (* Or, are we accepting every Nth buffer? *)
  ct <- read cbskip_ct ;;
  when (skip <? 0)
       (if - skip <=? ct
        then assign (set_cbskip_ct 0)
        else assign (set_cbskip_ct (ct + 1)) ;; leave DiscardSkip) ;;
  (* Having decided to take the current buffer, or cbskip==0 *)
  first <- read cbfirst ;;
  when (0 <? first) (assign (set_cbfirst (first - 1)) ;; leave DiscardFirst) ;;
  held <- read queueLock ;;
  when held (leave LockWait) ;;
  assign (set_queueLock true) ;;
  q <- read cbqueue ;;
  (* put_nowait: queue.Full when qsize >= maxsize; the handler exits *)
  when (MAXQUEUELEN <=? Z.of_nat (length q)) (leave ExitFull) ;;
  assign (set_cbqueue (q ++ [in_data])) ;;
  assign (set_queueLock false) ;;
  leave Queued.

(** One invocation by PortAudio: the exit taken and the globals left. *)
Definition callback (in_data : buffer) (status : Z) (g : globals)
  : cb_exit * globals :=
  match pa_callback_iqin in_data status g with
  | (Leave e, g') => (e, g')
  | (Next a, _) => match a with end
  end.

(** The stream: PortAudio invokes the callback once per buffer, in order.
    An exception in the callback ([ExitFull]) aborts the stream, and a
    callback waiting for the lock ([LockWait]) never returns: in both cases
    no later buffer is delivered. *)
Definition terminal (e : cb_exit) : bool :=
  match e with
  | ExitFull | LockWait => true
  | _ => false
  end.

Fixpoint run_stream (bufs : list (buffer * Z)) (g : globals)
  : list cb_exit * globals :=
  match bufs with
  | [] => ([], g)
  | (in_data, status) :: rest =>
      let (e, g1) := callback in_data status g in
      if terminal e then ([e], g1)
      else let (es, g2) := run_stream rest g1 in (e :: es, g2)
  end.

(** A buffer is kept by the skip policy when the callback gets past it,
    that is, leaves by any exit other than [DiscardSkip]. *)
Definition kept (e : cb_exit) : bool := negb (cb_exit_eqb e DiscardSkip).

Definition kept_count (es : list cb_exit) : Z :=
  Z.of_nat (length (filter kept es)).

(** *** The skip policy on its own

    What lines 68-80 of the callback do to the counter, and whether they
    let the buffer through; [callback_unfold] below shows that the callback
    computes exactly this. *)
Definition skip_policy (skip ct : Z) : bool * Z :=
  if 0 <? skip then
    if skip <=? ct then (false, 0) else (true, ct + 1)
  else if skip <? 0 then
    if - skip <=? ct then (true, 0) else (false, ct + 1)
  else (true, ct).


(** The globals after the first two statements of the callback. *)
Definition counted (status : Z) (g : globals) : globals :=
  let g1 := set_cbcount (cbcount g + 1) g in
  if status =? paInputOverflow then set_led_underrun_ct 1 g1 else g1.

(** The queue logic of lines 86-94 on its own. *)
Definition enqueue (in_data : buffer) (g : globals) : cb_exit * globals :=
  if queueLock g then (LockWait, g)
  else if MAXQUEUELEN <=? Z.of_nat (length (cbqueue g))
       then (ExitFull, set_queueLock true g)
       else (Queued,
             set_queueLock false
               (set_cbqueue (cbqueue g ++ [in_data]) (set_queueLock true g))).

(** *** The process around the globals

    [stream_up] is [false] once the stream no longer invokes the callback.
    PortAudio invokes the callback only while the stream is up; the callback
    thread runs while the consumer sleeps. *)
Record process := mkProcess {
  shared : globals;
  stream_up : bool
}.

Definition deliver (bufs : list (buffer * Z)) (p : process) : process :=
  if stream_up p then
    let (es, g) := run_stream bufs (shared p) in
    mkProcess g (negb (existsb terminal es))
  else p.

Definition qsize (p : process) : Z := Z.of_nat (length (cbqueue (shared p))).

(** *** DataInput.get_queued_data *)

(** The last three statements: [queueLock.acquire()],
    [cbqueue.get(True, 4.)], [queueLock.release()].
    - [Data d]: the oldest entry is returned;
    - [QueueEmpty]: nothing arrived within the 4 s of [get], [queue.Empty]
      is raised with the lock still held;
    - [GetLockWait]: the lock is held and [acquire] waits. *)
Inductive got := Data (d : buffer) | QueueEmpty | GetLockWait.

Definition locked_get (g : globals) : got * globals :=
  if queueLock g then (GetLockWait, g)
  else
    let g1 := set_queueLock true g in
    match cbqueue g1 with
    | [] => (QueueEmpty, g1)
    | d :: q => (Data d, set_queueLock false (set_cbqueue q g1))
    end.

(** How a call of [get_queued_data] ends: with the result of the locked
    [get], or in [sys.exit()] after "timeout waiting for queue to become
    non-empty!". *)
Inductive get_exit := Got (r : got) | Timeout.

(** [schedule i]: the buffers PortAudio delivers during the [i]-th
    [time.sleep(.1)] of the call, [i = 0, 1, ...]. *)
Definition schedule := nat -> list (buffer * Z).

(** The [while] loop.  [timeout] is the local variable, [sleeps] counts the
    calls of [time.sleep(.1)] so far, [fuel] bounds the iterations. *)
Fixpoint wait_loop (fuel : nat) (sched : schedule) (timeout : Z)
  (sleeps : nat) (p : process) : option (bool * nat * process) :=
  match fuel with
  | O => None
  | S fuel' =>
      if qsize p <? 4 then
        let timeout := timeout - 1 in
        if timeout <=? 0 then Some (false, sleeps, p)
        else wait_loop fuel' sched timeout (S sleeps) (deliver (sched sleeps) p)
      else Some (true, sleeps, p)
  end.

Definition get_queued_data (sched : schedule) (p : process)
  : option (get_exit * nat * process) :=
  match wait_loop 40 sched 40 0 p with
  | None => None
  | Some (false, sleeps, p1) => Some (Timeout, sleeps, p1)
  | Some (true, sleeps, p1) =>
      let (r, g) := locked_get (shared p1) in
      Some (Got r, sleeps, mkProcess g (stream_up p1))
  end.

(** Length of one [time.sleep(.1)], in milliseconds. *)
Definition sleep_ms : Z := 100.

(** The process after the first [n] sleeps of a call. *)
Fixpoint after_sleeps (sched : schedule) (p : process) (n : nat) : process :=
  match n with
  | O => p
  | S k => deliver (sched k) (after_sleeps sched p k)
  end.

(** *** Producer and consumer interleaved

    An event is one invocation of the callback by PortAudio or one locked
    [get] by the consumer. *)
Inductive event :=
| EvBuffer (in_data : buffer) (status : Z)
| EvGet.

Definition step (ev : event) (p : process) : process :=
  match ev with
  | EvBuffer in_data status => deliver [(in_data, status)] p
  | EvGet => mkProcess (snd (locked_get (shared p))) (stream_up p)
  end.

Definition run (evs : list event) (p : process) : process :=
  fold_left (fun p ev => step ev p) evs p.

Definition start (skip : Z) : process := mkProcess (module_globals skip) true.

(** *** Sample inputs *)

(** One stereo frame of 16-bit silence. *)
Definition silence : buffer := [x00; x00; x00; x00]%byte.

(** [n] buffers with no status flag. *)
Definition quiet (n : nat) : list (buffer * Z) := repeat (silence, 0) n.

(** The globals once the start-up discard is over. *)
Definition running (skip : Z) : globals := set_cbfirst 0 (module_globals skip).

(** The same with [MAXQUEUELEN] buffers pending. *)
Definition congested (skip : Z) : globals :=
  set_cbqueue (repeat silence 32) (running skip).

(** *** DataInput.Restart

    What [Restart] does to the module globals: [cbskip = opt.skip].  (The
    rest of the method talks to PyAudio.)  The counter, the start-up
    discard and the queue are left as they are. *)
Definition Restart (opt_skip : Z) (g : globals) : globals :=
  set_cbskip opt_skip g.

(** *** What goes in and what comes out

    The buffers an event puts in the queue and the buffers it hands to the
    consumer, and the same along a sequence of events. *)
Definition queued_by (ev : event) (p : process) : list buffer :=
  match ev with
  | EvBuffer in_data status =>
      if stream_up p then
        match fst (callback in_data status (shared p)) with
        | Queued => [in_data]
        | _ => []
        end
      else []
  | EvGet => []
  end.

Definition handed_out (ev : event) (p : process) : list buffer :=
  match ev with
  | EvBuffer _ _ => []
  | EvGet =>
      match fst (locked_get (shared p)) with
      | Data d => [d]
      | _ => []
      end
  end.

Fixpoint accepted (evs : list event) (p : process) : list buffer :=
  match evs with
  | [] => []
  | ev :: rest => queued_by ev p ++ accepted rest (step ev p)
  end.

Fixpoint delivered (evs : list event) (p : process) : list buffer :=
  match evs with
  | [] => []
  | ev :: rest => handed_out ev p ++ delivered rest (step ev p)
  end.

(** The decisions of the skip policy on [n] consecutive buffers. *)
Fixpoint skip_trace (skip ct : Z) (n : nat) : list bool :=
  match n with
  | O => []
  | S n' =>
      let (take, ct1) := skip_policy skip ct in
      take :: skip_trace skip ct1 n'
  end.

(** Whether a delivered buffer carried the input-overflow status. *)
Definition overflowed (b : buffer * Z) : bool := snd b =? paInputOverflow.

End IqAf.

(* ================================================================= *)
(** ** iq.py *)

Module Iq.

Open Scope Q_scope.

(** How a method that may call [quit_all()] (which ends in [sys.exit()])
    or raise ends, with the object as it is left. *)
Inductive py_exn := SystemExit | ZeroDivisionError | UnboundLocalError.

(** *** The transform-size clamp (module level) *)

Definition w_main : Z := 1280.
Definition w_spectra : Z := w_main.

Definition size_candidates : list Z := [1024; 512; 256; 128]%Z.

(** Returns the new [opt.size] and, when the size was reset, the two
    numbers printed by "*** Size was reset from %d to %d.". *)
Definition clamp_size (w size : Z) : Z * option (Z * Z) :=
  if (size >? w)%Z then
    match find (fun n => (n <=? w)%Z) size_candidates with
    | Some n => (n, Some (size, n))
    | None => (size, None)
    end
  else (size, None).

(** *** class Graticule *)

(** The fields the methods below read or write; [sample_rate] is
    [self.opt.sample_rate]. *)
Record Graticule := mkGraticule {
  sample_rate : Z;
  sp_max : Z;
  sp_min : Z;
  h : Z;
  w : Z
}.

Inductive outcome (A : Type) : Type :=
| Returns (a : A)
| Raises (e : py_exn) (self : Graticule).
Arguments Returns {A} a.
Arguments Raises {A} e self.

(** [set_range]: on an invalid request the message is printed and
    [quit_all()] does not return; otherwise both fields are assigned. *)
Definition set_range (self : Graticule) (sp_min' sp_max' : Z)
  : outcome Graticule :=
  if negb (sp_max' >? sp_min')%Z then Raises SystemExit self
  else
    let self := mkGraticule (sample_rate self) sp_max' (sp_min self)
                            (h self) (w self) in
    let self := mkGraticule (sample_rate self) (sp_max self) sp_min'
                            (h self) (w self) in
    Returns self.

(** [range(start, stop, step)] for a positive step. *)
Definition py_range (start stop step : Z) : list Z :=
  map (fun i => (start + step * Z.of_nat i)%Z)
      (seq 0 (Z.to_nat ((stop - start + step - 1) / step))).

Definition Qlt_bool (x y : Q) : bool := negb (Qle_bool y x).

Definition xtick_candidates : list Z :=
  [800; 400; 200; 100; 80; 40; 20; 10]%Z.

(** The loop variable after
    [for xtick_max in cands: if xtick_max < srate2: break];
    [cur] is its value before the loop ([None]: not yet bound). *)
Fixpoint for_xtick_max (cands : list Z) (srate2 : Q) (cur : option Z)
  : option Z :=
  match cands with
  | [] => cur
  | c :: rest =>
      if Qlt_bool (inject_Z c) srate2 then Some c
      else for_xtick_max rest srate2 (Some c)
  end.

(** kHz total bandwidth, and plus or minus kHz.  The floats of the source
    are exact rationals here; for an integer [sample_rate] the comparison
    [xtick_max < srate2] has the same outcome in both. *)
Definition frq_range (self : Graticule) : Q := inject_Z (sample_rate self) / 1000.
Definition srate2 (self : Graticule) : Q := frq_range self / 2.

(** What [make] draws: the horizontal lines (dB value, y coordinate), the
    dB value next to which the unit is written, the chosen half-span and
    the vertical lines (offset in kHz, x coordinate). *)
Record grid := mkGrid {
  db_lines : list (Z * Q);
  unit_at : Z;
  xtick_max : Z;
  freq_lines : list (Q * Q)
}.

Definition make (self : Graticule) : outcome grid :=
  if (sp_max self - sp_min self =? 0)%Z then Raises ZeroDivisionError self
  else
    let yscale := inject_Z (h self) / inject_Z (sp_max self - sp_min self) in
    let attns := py_range (sp_min self) (sp_max self) 10 in
    let lines :=
      map (fun attn =>
             let yattn := inject_Z (attn - sp_min self) * yscale + 3 in
             (attn, inject_Z (h self) - yattn)) attns in
    match rev attns with
    | [] => Raises UnboundLocalError self
    | attn :: _ =>
        if Qeq_bool (frq_range self) 0 then Raises ZeroDivisionError self
        else
          let xscale := inject_Z (w self) / frq_range self in
          match for_xtick_max xtick_candidates (srate2 self) None with
          | None => Raises UnboundLocalError self
          | Some xtick =>
              let ticks := [ - inject_Z xtick; - inject_Z xtick / 2; 0;
                             inject_Z xtick / 2; inject_Z xtick ] in
              Returns
                (mkGrid lines attn xtick
                   (map (fun offset =>
                           (offset, offset * xscale + inject_Z (w self) / 2))
                        ticks))
          end
    end.

(** *** Sample inputs *)

(** The 2d display of the waterfall layout, with the default dB range, fed
    by a 48 kHz and by a 16 kHz sound card. *)
Definition grat_48k : Graticule := mkGraticule 48000 (-20) (-120) 266 1280.
Definition grat_16k : Graticule := mkGraticule 16000 (-20) (-120) 266 1280.

End Iq.

(* ================================================================= *)
(** ** iq.py: touch and keyboard handlers *)

From Stdlib Require Import Qabs.
Open Scope Z_scope.

Module IqUi.

Open Scope Z_scope.

(** The texts assigned to [touch_feedback_msg], with the number each
    f-string formats. *)
Inductive feedback :=
| NoFeedback
| UpperDb (sp_max : Z)
| LowerDb (sp_min : Z)
| FftSize (size : Z)
| FftSizeReset (size : Z)
| MinFftSize
| MaxFftSize
| SampleRate (rate : Z)
| SampleRateReset (rate : Z)
| MinSampleRate
| MaxSampleRate
| Menu (info_phase : Z)
| MenuOff
| MenuOn.

(** The globals [touch_feedback_msg] and [touch_feedback_timer]. *)
Record touch_feedback := mkFeedback {
  touch_feedback_msg : feedback;
  touch_feedback_timer : Z
}.

Definition Qgt_bool (x y : Q) : bool := Iq.Qlt_bool y x.

(** Height of the 2d display: [266 if opt.waterfall else SCREEN_SIZE[1]]. *)
Definition h_2d (waterfall : bool) : Z := if waterfall then 266 else 1280.

(** The handlers a long press can be handed to, and the help screen. *)
Inductive long_press_action :=
| MenuNavigation | QuickSettings | DisplayModeSwitch | GainAdjustment
| SampleRateAdjustment | FftSizeAdjustment | BufferAdjustment
| WaterfallPaletteAdjustment | WaterfallAccumulationAdjustment
| PulseClipAdjustment | SkipAdjustment | LagfixAdjustment | HelpScreen.

Section FloatDivision.

(** [fdiv a b] is Python's [a / b] on two integers: a float, which we take
    as the rational number it stands for.  Positions on the screen are
    floats as well and are rationals here. *)
Variable fdiv : Z -> Z -> Q.

(** *** handle_touch_menu_navigation *)

Definition handle_touch_menu_navigation (x y : Q) (info_phase : Z)
  (fb : touch_feedback) : Z * touch_feedback :=
  if Iq.Qlt_bool x (fdiv Iq.w_main 3) then
    if info_phase >? 0 then
      let info_phase := (info_phase - 1) mod 4 in
      (info_phase, mkFeedback (Menu info_phase) 30)
    else (info_phase, fb)
  else if Qgt_bool x (fdiv (2 * Iq.w_main) 3) then
    if info_phase <? 3 then
      let info_phase := (info_phase + 1) mod 4 in
      (info_phase, mkFeedback (Menu info_phase) 30)
    else (info_phase, fb)
  else
    if info_phase >? 0 then (0, mkFeedback MenuOff 30)
    else (1, mkFeedback MenuOn 30).

(** *** handle_touch_fft_size_adjustment

    Acts on [opt.size]; [myDSP.update_window()] concerns the DSP object
    only. *)
Definition handle_touch_fft_size_adjustment (x y : Q) (size : Z)
  : Z * touch_feedback :=
  if Iq.Qlt_bool x (fdiv Iq.w_main 3) then
    if size >? 64 then
      let size := size / 2 in (size, mkFeedback (FftSize size) 60)
    else (size, mkFeedback MinFftSize 60)
  else if Iq.Qlt_bool x (fdiv (2 * Iq.w_main) 3) then
    (384, mkFeedback (FftSizeReset 384) 60)
  else
    if (size <? 1024) && (size * 2 <=? Iq.w_spectra) then
      let size := size * 2 in (size, mkFeedback (FftSize size) 60)
    else (size, mkFeedback MaxFftSize 60).

(** *** handle_touch_sample_rate_adjustment

    Acts on [opt.sample_rate]; [source_rtl] is [opt.source == 'rtl']. *)
Definition handle_touch_sample_rate_adjustment (x y : Q) (source_rtl : bool)
  (rate : Z) : Z * touch_feedback :=
  if Iq.Qlt_bool x (fdiv Iq.w_main 3) then
    if rate >? 48000 then
      let rate := rate / 2 in (rate, mkFeedback (SampleRate rate) 60)
    else (rate, mkFeedback MinSampleRate 60)
  else if Iq.Qlt_bool x (fdiv (2 * Iq.w_main) 3) then
    let rate := if source_rtl then 1024000 else 48000 in
    (rate, mkFeedback (SampleRateReset rate) 60)
  else
    if rate <? 2048000 then
      let rate := rate * 2 in (rate, mkFeedback (SampleRate rate) 60)
    else (rate, mkFeedback MaxSampleRate 60).

(** *** The long-press branch of the FINGERUP event

    Which handler the [if]/[elif] chain on [current_y] calls. *)
Definition long_press (h : Z) (current_y : Q) : long_press_action :=
  if Iq.Qlt_bool current_y (fdiv h 3) then MenuNavigation
  else if Qgt_bool current_y (fdiv (2 * h) 3) then QuickSettings
  else if Iq.Qlt_bool current_y (fdiv h 3) then DisplayModeSwitch
  else if Iq.Qlt_bool current_y (fdiv h 2) then GainAdjustment
  else if Iq.Qlt_bool current_y (fdiv (3 * h) 4) then SampleRateAdjustment
  else if Iq.Qlt_bool current_y (fdiv (7 * h) 8) then FftSizeAdjustment
  else if Iq.Qlt_bool current_y (fdiv (15 * h) 16) then BufferAdjustment
  else if Iq.Qlt_bool current_y (fdiv (31 * h) 32)
       then WaterfallPaletteAdjustment
  else if Iq.Qlt_bool current_y (fdiv (63 * h) 64)
       then WaterfallAccumulationAdjustment
  else if Iq.Qlt_bool current_y (fdiv (127 * h) 128) then PulseClipAdjustment
  else if Iq.Qlt_bool current_y (fdiv (255 * h) 256) then SkipAdjustment
  else if Iq.Qlt_bool current_y (fdiv (511 * h) 512) then LagfixAdjustment
  else HelpScreen.

End FloatDivision.

(** Division of two integers as a rational, without rounding. *)
Definition exact_division (a b : Z) : Q := (inject_Z a / inject_Z b)%Q.

(** *** handle_spectrum_touch_controls *)

(** The globals the handler works on; [mygraticule] carries
    [opt.sample_rate], [size] is [opt.size]. *)
Record spectrum_state := mkSpectrum {
  sp_min : Z;
  sp_max : Z;
  mygraticule : Iq.Graticule;
  surf_2d_graticule : Iq.grid;
  size : Z;
  touch : touch_feedback
}.

Definition set_sp_min (v : Z) (s : spectrum_state) : spectrum_state :=
  mkSpectrum v (sp_max s) (mygraticule s) (surf_2d_graticule s) (size s) (touch s).
Definition set_sp_max (v : Z) (s : spectrum_state) : spectrum_state :=
  mkSpectrum (sp_min s) v (mygraticule s) (surf_2d_graticule s) (size s) (touch s).
Definition set_mygraticule (v : Iq.Graticule) (s : spectrum_state)
  : spectrum_state :=
  mkSpectrum (sp_min s) (sp_max s) v (surf_2d_graticule s) (size s) (touch s).
Definition set_surf_2d_graticule (v : Iq.grid) (s : spectrum_state)
  : spectrum_state :=
  mkSpectrum (sp_min s) (sp_max s) (mygraticule s) v (size s) (touch s).
Definition set_size (v : Z) (s : spectrum_state) : spectrum_state :=
  mkSpectrum (sp_min s) (sp_max s) (mygraticule s) (surf_2d_graticule s) v (touch s).
Definition set_touch (msg : feedback) (timer : Z) (s : spectrum_state)
  : spectrum_state :=
  mkSpectrum (sp_min s) (sp_max s) (mygraticule s) (surf_2d_graticule s)
             (size s) (mkFeedback msg timer).

(** A handler returns, or an exception leaves it with the globals as they
    are at that point. *)
Inductive handled :=
| Done (s : spectrum_state)
| Failed (e : Iq.py_exn) (s : spectrum_state).

Definition and_then (r : handled) (k : spectrum_state -> handled) : handled :=
  match r with
  | Done s => k s
  | Failed e s => Failed e s
  end.

(** [mygraticule.set_range(sp_min, sp_max)] followed by
    [surf_2d_graticule = mygraticule.make()]. *)
Definition regrid (s : spectrum_state) : handled :=
  match Iq.set_range (mygraticule s) (sp_min s) (sp_max s) with
  | Iq.Raises e self => Failed e (set_mygraticule self s)
  | Iq.Returns self =>
      let s := set_mygraticule self s in
      match Iq.make self with
      | Iq.Raises e _ => Failed e s
      | Iq.Returns surface => Done (set_surf_2d_graticule surface s)
      end
  end.

(** "Adjust spectrum dB limits with HORIZONTAL movement": the block under
    [if abs(dx) > 5]. *)
Definition drag_upper_limit (dx : Q) (s : spectrum_state) : handled :=
  if Qgt_bool (Qabs dx) 5 then
    if Qgt_bool dx 0 then
      if sp_max s <? 0 then
        and_then (regrid (set_sp_max (sp_max s + 5) s))
                 (fun s => Done (set_touch (UpperDb (sp_max s)) 30 s))
      else Done s
    else
      if (sp_max s >? -130) && (sp_max s >? sp_min s + 10) then
        and_then (regrid (set_sp_max (sp_max s - 5) s))
                 (fun s => Done (set_touch (UpperDb (sp_max s)) 30 s))
      else Done s
  else Done s.

(** "Adjust spectrum dB limits with VERTICAL movement": the [if dy > 0] /
    [else] at the head of the block under [if abs(dy) > 5]. *)
Definition drag_lower_limit (dy : Q) (s : spectrum_state) : handled :=
  if Qgt_bool dy 0 then
    if sp_min s <? sp_max s - 10 then
      and_then (regrid (set_sp_min (sp_min s + 5) s))
               (fun s => Done (set_touch (LowerDb (sp_min s)) 30 s))
    else Done s
  else
    if sp_min s >? -140 then
      and_then (regrid (set_sp_min (sp_min s - 5) s))
               (fun s => Done (set_touch (LowerDb (sp_min s)) 30 s))
    else Done s.

(** "Adjust FFT size with diagonal movement": the rest of the block under
    [if abs(dy) > 5]. *)
Definition drag_fft_size (dx dy : Q) (s : spectrum_state) : spectrum_state :=
  if Qgt_bool (Qabs dx) 10 && Qgt_bool (Qabs dy) 10 then
    if Qgt_bool dx 0 && Iq.Qlt_bool dy 0 then
      let new_size := size s * 2 in
      if (new_size <=? Iq.w_spectra) && (new_size <=? 1024) then
        set_touch (FftSize new_size) 30 (set_size new_size s)
      else s
    else if Iq.Qlt_bool dx 0 && Qgt_bool dy 0 then
      let new_size := size s / 2 in
      if new_size >=? 64 then
        set_touch (FftSize new_size) 30 (set_size new_size s)
      else s
    else s
  else s.

Definition handle_spectrum_touch_controls (x y dx dy : Q)
  (s : spectrum_state) : handled :=
  and_then (drag_upper_limit dx s)
    (fun s =>
       if Qgt_bool (Qabs dy) 5 then
         and_then (drag_lower_limit dy s)
                  (fun s => Done (drag_fft_size dx dy s))
       else Done s).

(** The 2d display is in step: the graticule holds the range of the
    globals, the range is a valid one, the sample rate is not zero, and the
    stored surface is the one [make] gives for the graticule. *)
Definition in_step (s : spectrum_state) : Prop :=
  Iq.sp_min (mygraticule s) = sp_min s /\
  Iq.sp_max (mygraticule s) = sp_max s /\
  sp_min s < sp_max s /\
  Iq.sample_rate (mygraticule s) <> 0 /\
  Iq.make (mygraticule s) = Iq.Returns (surf_2d_graticule s).

(** *** The dB keys of the KEYDOWN event

    [u]/[U] and [l]/[L] while [info_phase <= 1], the four arrows while
    [info_phase == 2]: the global is stepped by 10 when its guard allows,
    and the graticule is set and made again in either case. *)
Inductive db_key := UpperUp | UpperDown | LowerUp | LowerDown.

Definition keydown_db (k : db_key) (s : spectrum_state) : handled :=
  match k with
  | UpperUp =>
      regrid (if sp_max s <? 0 then set_sp_max (sp_max s + 10) s else s)
  | UpperDown =>
      regrid (if (sp_max s >? -130) && (sp_max s >? sp_min s + 10)
              then set_sp_max (sp_max s - 10) s else s)
  | LowerUp =>
      regrid (if sp_min s <? sp_max s - 10
              then set_sp_min (sp_min s + 10) s else s)
  | LowerDown =>
      regrid (if sp_min s >? -140 then set_sp_min (sp_min s - 10) s else s)
  end.

(** *** Sample inputs *)

(** The state after start-up at 48 kHz with the default dB range. *)
Definition spectrum_48k : spectrum_state :=
  match Iq.make Iq.grat_48k with
  | Iq.Returns surface =>
      mkSpectrum (-120) (-20) Iq.grat_48k surface 512 (mkFeedback NoFeedback 0)
  | Iq.Raises _ _ =>
      mkSpectrum (-120) (-20) Iq.grat_48k (Iq.mkGrid [] 0 0 []) 512
                 (mkFeedback NoFeedback 0)
  end.

End IqUi.

(* ================================================================= *)
(** ** Properties of iq_af.py *)

Module AfFacts.
Import IqAf.

(* ----------------------------------------------------------------- *)
(** *** The callback, stage by stage *)

Lemma callback_unfold (in_data : buffer) (status : Z) (g : globals) :
  callback in_data status g =
  let g1 := counted status g in
  let (take, ct) := skip_policy (cbskip g) (cbskip_ct g) in
  let g2 := set_cbskip_ct ct g1 in
  if negb take then (DiscardSkip, g2)
  else if 0 <? cbfirst g then (DiscardFirst, set_cbfirst (cbfirst g - 1) g2)
  else enqueue in_data g2.
Proof.
  unfold callback, pa_callback_iqin, skip_policy, counted, enqueue,
    bind, read, assign, when, leave, ret.
  destruct g as [led n q skip ct lk first]; cbn.
  destruct (status =? paInputOverflow); cbn;
    destruct (0 <? skip) eqn:Hpos; cbn;
    destruct (skip <=? ct) eqn:Hge; cbn;
    destruct (skip <? 0) eqn:Hneg; cbn;
    try (exfalso; apply Z.ltb_lt in Hpos; apply Z.ltb_lt in Hneg; lia);
    try reflexivity;
    repeat match goal with
           | |- context [if ?b then _ else _] => destruct b eqn:?; cbn
           end;
    try reflexivity; try lia.
Qed.

Lemma callback_skip (in_data : buffer) (status : Z) (g : globals) :
  cbskip (snd (callback in_data status g)) = cbskip g /\
  (kept (fst (callback in_data status g)),
   cbskip_ct (snd (callback in_data status g)))
  = skip_policy (cbskip g) (cbskip_ct g).
Proof.
  rewrite callback_unfold; cbv zeta.
  destruct (skip_policy (cbskip g) (cbskip_ct g)) as [take ct].
  unfold counted, enqueue.
  destruct g as [led n q skip c lk first]; cbn.
  destruct take; cbn;
    repeat match goal with
           | |- context [if ?b then _ else _] => destruct b; cbn
           end; split; reflexivity.
Qed.

Lemma kept_count_cons (e : cb_exit) (es : list cb_exit) :
  kept_count (e :: es) = (if kept e then 1 else 0) + kept_count es.
Proof.
  unfold kept_count; cbn [filter].
  destruct (kept e); cbn [length]; lia.
Qed.


(* ----------------------------------------------------------------- *)
(** *** Arithmetic of the skip counter *)












(* ----------------------------------------------------------------- *)
(** *** Start-up discards *)

Ltac by_cases :=
  repeat match goal with
         | |- context [if ?b then _ else _] => destruct b eqn:?; cbn
         end.



(* ----------------------------------------------------------------- *)
(** *** The skip policy over a stream *)







(* ----------------------------------------------------------------- *)
(** *** Start-up discards and the skip policy *)

Lemma counted_queue (status : Z) (g : globals) :
  cbqueue (counted status g) = cbqueue g.
Proof.
  unfold counted. destruct (status =? paInputOverflow); reflexivity.
Qed.

Lemma counted_first (status : Z) (g : globals) :
  cbfirst (counted status g) = cbfirst g.
Proof.
  unfold counted. destruct (status =? paInputOverflow); reflexivity.
Qed.

(** As long as no more buffers have been kept than [cbfirst] allows, the
    stream has put nothing in the queue: every buffer so far was discarded
    by the skip policy or tossed as one of the first. *)
Lemma startup_discards (bufs : list (buffer * Z)) :
  forall g es g',
    run_stream bufs g = (es, g') ->
    kept_count es <= cbfirst g ->
    cbqueue g' = cbqueue g /\
    cbfirst g' = cbfirst g - kept_count es /\
    length es = length bufs /\
    (forall e, In e es -> e = DiscardSkip \/ e = DiscardFirst).
Proof.
  induction bufs as [|[d st] rest IH]; intros g es g' Hrun Hk.
  - cbn in Hrun. injection Hrun as <- <-.
    unfold kept_count; cbn.
    split; [reflexivity|]. split; [lia|]. split; [reflexivity|]. intros e [].
  - cbn [run_stream] in Hrun. rewrite callback_unfold in Hrun; cbv zeta in Hrun.
    destruct (skip_policy (cbskip g) (cbskip_ct g)) as [take ct].
    destruct take; cbn [negb] in Hrun.
    + destruct (0 <? cbfirst g) eqn:Ef.
      * cbn [terminal] in Hrun.
        destruct (run_stream rest _) as [es1 g2] eqn:Hrest.
        injection Hrun as <- <-.
        rewrite kept_count_cons in Hk |- *.
        cbn [kept cb_exit_eqb negb] in Hk |- *.
        destruct (IH _ _ _ Hrest) as (Hq & Hf & Hl & Hall).
        { cbn [cbfirst set_cbfirst]. lia. }
        cbn [cbfirst cbqueue set_cbfirst set_cbskip_ct] in Hq, Hf.
        rewrite counted_queue in Hq.
        split; [exact Hq|]. split; [lia|]. split; [cbn [length]; lia|].
        intros e [<-|He]; [right; reflexivity | apply Hall, He].
      * exfalso. apply Z.ltb_ge in Ef.
        assert (Hpos : 1 <= kept_count es).
        { unfold enqueue in Hrun.
          destruct (queueLock _); [|destruct (MAXQUEUELEN <=? _)];
            cbn [terminal] in Hrun;
            try (injection Hrun as <- <-; unfold kept_count; cbn; lia).
          destruct (run_stream rest _) as [es1 g2].
          injection Hrun as <- <-. rewrite kept_count_cons.
          cbn [kept cb_exit_eqb negb]. unfold kept_count. lia. }
        lia.
    + cbn [terminal] in Hrun.
      destruct (run_stream rest _) as [es1 g2] eqn:Hrest.
      injection Hrun as <- <-.
      rewrite kept_count_cons in Hk |- *.
      cbn [kept cb_exit_eqb negb] in Hk |- *.
      destruct (IH _ _ _ Hrest) as (Hq & Hf & Hl & Hall).
      { cbn [cbfirst set_cbskip_ct]. rewrite counted_first. lia. }
      cbn [cbfirst cbqueue set_cbskip_ct] in Hq, Hf.
      rewrite counted_queue in Hq. rewrite counted_first in Hf.
      split; [exact Hq|]. split; [lia|]. split; [cbn [length]; lia|].
      intros e [<-|He]; [left; reflexivity | apply Hall, He].
Qed.

(** C6, as the code has it: the start-up discard sits after the skip policy and
    before the queue logic.  While [cbfirst > 0] every arriving buffer
    first goes through the skip policy, which advances the skip counter; a
    buffer the policy discards leaves [cbfirst] alone, a buffer it keeps is
    dropped and takes one off [cbfirst]; the queue is not touched in either
    case.  Once [cbfirst] is down to zero a kept buffer goes to the queue
    logic. *)
Theorem first_discard_after_skip (in_data : buffer) (status : Z)
  (g : globals) :
  let take := fst (skip_policy (cbskip g) (cbskip_ct g)) in
  let ct := snd (skip_policy (cbskip g) (cbskip_ct g)) in
  let e := fst (callback in_data status g) in
  let g' := snd (callback in_data status g) in
  cbskip_ct g' = ct /\
  (0 < cbfirst g ->
   cbqueue g' = cbqueue g /\
   (if take then e = DiscardFirst /\ cbfirst g' = cbfirst g - 1
    else e = DiscardSkip /\ cbfirst g' = cbfirst g)) /\
  (cbfirst g <= 0 ->
   cbfirst g' = cbfirst g /\
   (if take
    then (e, g') = enqueue in_data (set_cbskip_ct ct (counted status g))
    else e = DiscardSkip /\ cbqueue g' = cbqueue g)).
Proof.
  cbv zeta. rewrite callback_unfold; cbv zeta.
  destruct (skip_policy (cbskip g) (cbskip_ct g)) as [take ct]; cbn [fst snd].
  split; [|split]; intros.
  - unfold counted, enqueue.
    destruct g as [led n q skip c lk first]; cbn.
    destruct take; cbn; by_cases; reflexivity.
  - destruct (0 <? cbfirst g) eqn:E; [|apply Z.ltb_ge in E; lia].
    unfold counted.
    destruct g as [led n q skip c lk first]; cbn.
    destruct take; cbn; by_cases; repeat split; reflexivity.
  - destruct (0 <? cbfirst g) eqn:E; [apply Z.ltb_lt in E; lia|].
    unfold counted, enqueue.
    destruct g as [led n q skip c lk first]; cbn.
    destruct take; cbn; by_cases; repeat split; reflexivity.
Qed.

Lemma first_discard_after_skip_witness :
  fst (callback silence 0 (module_globals 0)) = DiscardFirst /\
  cbfirst (snd (callback silence 0 (module_globals 0))) = 0 /\
  cbqueue (snd (callback silence 0 (module_globals 0))) = [].
Proof.
  assert (H : 0 < cbfirst (module_globals 0)) by (vm_compute; reflexivity).
  destruct (first_discard_after_skip silence 0 (module_globals 0))
    as (_ & Hfirst & _).
  destruct (Hfirst H) as (Hq & He & Hf).
  split; [exact He|]. split; [exact Hf | exact Hq].
Defined.

(** Against C6 as worded: with [cbskip = 1] the very first buffer after the
    module is loaded is tossed as a start-up discard, and the skip counter
    has moved from 0 to 1; with [cbskip = -1] the first buffer is discarded
    by the skip policy and does not count as the start-up discard. *)
Lemma first_block_advances_skip_counter :
  fst (callback silence 0 (module_globals 1)) = DiscardFirst /\
  cbskip_ct (module_globals 1) = 0 /\
  cbskip_ct (snd (callback silence 0 (module_globals 1))) = 1 /\
  fst (run_stream (quiet 2) (module_globals (-1)))
    = [DiscardSkip; DiscardFirst].
Proof. repeat split. Qed.

(* ----------------------------------------------------------------- *)
(** *** The queue *)

(** One invocation leaves the queue alone or appends the buffer to a queue
    that has room. *)
Lemma callback_queue (in_data : buffer) (status : Z) (g : globals) :
  let e := fst (callback in_data status g) in
  let g' := snd (callback in_data status g) in
  (e <> Queued /\ cbqueue g' = cbqueue g) \/
  (e = Queued /\ Z.of_nat (length (cbqueue g)) < MAXQUEUELEN /\
   cbqueue g' = cbqueue g ++ [in_data]).
Proof.
  cbv zeta. rewrite callback_unfold; cbv zeta.
  destruct (skip_policy (cbskip g) (cbskip_ct g)) as [take ct].
  unfold counted, enqueue.
  destruct g as [led n q skip c lk first]; cbn.
  destruct take; cbn; by_cases;
    try (left; split; [discriminate|reflexivity]).
  all: right; repeat split; apply Z.leb_gt; assumption.
Qed.

Lemma locked_get_queue (g : globals) :
  (length (cbqueue (snd (locked_get g))) <= length (cbqueue g))%nat.
Proof.
  unfold locked_get. destruct g as [led n q skip c lk first]; cbn.
  destruct lk; cbn; [lia|]. destruct q; cbn; lia.
Qed.

Lemma step_qsize (ev : event) (p : process) :
  qsize p <= MAXQUEUELEN -> qsize (step ev p) <= MAXQUEUELEN.
Proof.
  unfold qsize. intros Hp. destruct ev as [d st|]; cbn [step].
  - unfold deliver. destruct (stream_up p); [|exact Hp].
    cbn [run_stream].
    pose proof (callback_queue d st (shared p)) as Hq; cbv zeta in Hq.
    destruct (callback d st (shared p)) as [e g1]; cbn [fst snd] in Hq.
    assert (Hg : Z.of_nat (length (cbqueue g1)) <= MAXQUEUELEN).
    { destruct Hq as [[_ ->]|(_ & Hroom & ->)]; [exact Hp|].
      rewrite length_app; cbn [length]. lia. }
    destruct (terminal e); cbn [shared]; exact Hg.
  - cbn [shared]. pose proof (locked_get_queue (shared p)). lia.
Qed.

Lemma run_qsize (evs : list event) :
  forall p, qsize p <= MAXQUEUELEN -> qsize (run evs p) <= MAXQUEUELEN.
Proof.
  unfold run. induction evs as [|ev evs IH]; intros p Hp; cbn [fold_left].
  - exact Hp.
  - apply IH, step_qsize, Hp.
Qed.

(** C9: from the state the module is loaded in, after any number of steps
    of any interleaving of callback invocations and consumer gets, the
    queue holds at most [MAXQUEUELEN = 32] buffers; and a callback that
    finds the queue full leaves its contents as they are. *)
Theorem queue_never_exceeds_capacity :
  MAXQUEUELEN = 32 /\
  (forall (skip : Z) (evs : list event) (k : nat),
      qsize (run (firstn k evs) (start skip)) <= MAXQUEUELEN) /\
  (forall (in_data : buffer) (status : Z) (g : globals),
      MAXQUEUELEN <= Z.of_nat (length (cbqueue g)) ->
      cbqueue (snd (callback in_data status g)) = cbqueue g).
Proof.
  split; [reflexivity|split].
  - intros skip evs k. apply run_qsize. unfold qsize, MAXQUEUELEN; cbn. lia.
  - intros d st g Hfull.
    destruct (callback_queue d st g) as [[_ H]|(_ & Hroom & _)];
      [exact H | lia].
Qed.

Lemma queue_never_exceeds_capacity_witness :
  qsize (run (firstn 2 [EvBuffer silence 0; EvBuffer silence 2; EvGet])
             (start 0)) <= MAXQUEUELEN /\
  cbqueue (snd (callback silence 0 (congested 0))) = cbqueue (congested 0).
Proof.
  split; [exact (proj1 (proj2 queue_never_exceeds_capacity) 0 _ 2%nat)|].
  assert (H : MAXQUEUELEN <= Z.of_nat (length (cbqueue (congested 0))))
    by (vm_compute; discriminate).
  exact (proj2 (proj2 queue_never_exceeds_capacity) silence 0 (congested 0) H).
Defined.

(** C2, as the code has it: when the callback has decided to take the buffer, the
    start-up discard is over, the lock is free and the queue holds
    [MAXQUEUELEN] buffers, the callback does not wait: the buffer is
    dropped, the queue is unchanged, [led_underrun_ct] is what the status
    word alone made it (this path sets no flag), and the callback leaves
    through [sys.exit()], after which no later buffer is processed. *)
Theorem full_queue_exits (in_data : buffer) (status : Z) (g : globals)
  (rest : list (buffer * Z)) :
  fst (skip_policy (cbskip g) (cbskip_ct g)) = true ->
  cbfirst g <= 0 ->
  queueLock g = false ->
  MAXQUEUELEN <= Z.of_nat (length (cbqueue g)) ->
  let e := fst (callback in_data status g) in
  let g' := snd (callback in_data status g) in
  e = ExitFull /\
  cbqueue g' = cbqueue g /\
  led_underrun_ct g' =
    (if status =? paInputOverflow then 1 else led_underrun_ct g) /\
  run_stream ((in_data, status) :: rest) g = ([ExitFull], g').
Proof.
  intros Htake Hf Hlk Hfull. cbv zeta.
  assert (E : callback in_data status g
              = (ExitFull,
                 set_queueLock true
                   (set_cbskip_ct (snd (skip_policy (cbskip g) (cbskip_ct g)))
                      (counted status g)))).
  { rewrite callback_unfold; cbv zeta.
    destruct (skip_policy (cbskip g) (cbskip_ct g)) as [take ct].
    cbn [fst snd] in *. subst take. cbn [negb].
    destruct (0 <? cbfirst g) eqn:E; [apply Z.ltb_lt in E; lia|].
    unfold enqueue, counted.
    destruct g as [led n q skip c lk first]; cbn in *. subst lk.
    apply Z.leb_le in Hfull.
    destruct (status =? paInputOverflow); cbn; rewrite Hfull; reflexivity. }
  cbn [run_stream]. rewrite E. cbn [fst snd terminal].
  split; [reflexivity|]. split; [|split; [|reflexivity]].
  - unfold counted. destruct g as [led n q skip c lk first]; cbn.
    destruct (status =? paInputOverflow); reflexivity.
  - unfold counted. destruct g as [led n q skip c lk first]; cbn.
    destruct (status =? paInputOverflow); reflexivity.
Qed.

Lemma full_queue_exits_witness :
  fst (callback silence 0 (congested 0)) = ExitFull /\
  cbqueue (snd (callback silence 0 (congested 0))) = cbqueue (congested 0).
Proof.
  assert (H1 : fst (skip_policy (cbskip (congested 0))
                                (cbskip_ct (congested 0))) = true)
    by reflexivity.
  assert (H2 : cbfirst (congested 0) <= 0) by (vm_compute; discriminate).
  assert (H3 : queueLock (congested 0) = false) by reflexivity.
  assert (H4 : MAXQUEUELEN <= Z.of_nat (length (cbqueue (congested 0))))
    by (vm_compute; discriminate).
  pose proof (full_queue_exits silence 0 (congested 0) [] H1 H2 H3 H4) as H.
  exact (conj (proj1 H) (proj1 (proj2 H))).
Defined.

(** Against C2 as worded: with the queue full, the callback leaves through
    [sys.exit()], the flag read by the display stays at 0, and of two
    buffers sent the second one never reaches the callback. *)
Lemma full_queue_stops_stream :
  fst (callback silence 0 (congested 0)) = ExitFull /\
  led_underrun_ct (snd (callback silence 0 (congested 0))) = 0 /\
  fst (run_stream (quiet 2) (congested 0)) = [ExitFull] /\
  cbcount (snd (run_stream (quiet 2) (congested 0))) = 1.
Proof. repeat split. Qed.

(** With nothing taken out, the module as loaded tosses one buffer, queues
    32 and leaves on the 34th. *)
Example thirty_four_buffers :
  fst (run_stream (quiet 34) (module_globals 0))
  = DiscardFirst :: repeat Queued 32 ++ [ExitFull].
Proof. reflexivity. Qed.

(* ----------------------------------------------------------------- *)
(** *** The consumer's wait *)

Section Wait.

Variable sched : schedule.
Variable p0 : process.

Let at_sleep (n : nat) : process := after_sleeps sched p0 n.

(** The loop entered after [sleeps] sleeps with [timeout] left: it ends
    within [timeout - 1] further sleeps, at the first poll that sees four
    buffers or at the poll that brings [timeout] down to zero. *)
Lemma wait_loop_ends (fuel : nat) :
  forall (timeout : Z) (sleeps : nat),
    1 <= timeout -> timeout <= Z.of_nat fuel ->
    (forall i, (i < sleeps)%nat -> qsize (at_sleep i) < 4) ->
    exists (filled : bool) (n : nat),
      wait_loop fuel sched timeout sleeps (at_sleep sleeps)
      = Some (filled, n, at_sleep n) /\
      (sleeps <= n)%nat /\
      Z.of_nat n <= Z.of_nat sleeps + timeout - 1 /\
      (forall i, (i < n)%nat -> qsize (at_sleep i) < 4) /\
      (if filled then 4 <= qsize (at_sleep n)
       else Z.of_nat n = Z.of_nat sleeps + timeout - 1 /\
            qsize (at_sleep n) < 4).
Proof.
  induction fuel as [|fuel IH]; intros timeout sleeps Hlo Hhi Hbefore.
  - cbn in Hhi. lia.
  - cbn [wait_loop].
    destruct (qsize (at_sleep sleeps) <? 4) eqn:Hpoll.
    + apply Z.ltb_lt in Hpoll.
      destruct (timeout - 1 <=? 0) eqn:Hout.
      * apply Z.leb_le in Hout.
        exists false, sleeps. repeat split; try lia; assumption.
      * apply Z.leb_gt in Hout.
        change (deliver (sched sleeps) (at_sleep sleeps))
          with (at_sleep (S sleeps)).
        destruct (IH (timeout - 1) (S sleeps)) as (b & n & Hw & H1 & H2 & H3 & H4);
          [lia | lia | |].
        { intros i Hi. destruct (Nat.eq_dec i sleeps) as [->|Hne];
            [exact Hpoll | apply Hbefore; lia]. }
        exists b, n. split; [exact Hw|].
        split; [lia|]. split; [lia|]. split; [exact H3|].
        destruct b; [exact H4|]. destruct H4 as [H4 H5]. split; [lia|exact H5].
    + apply Z.ltb_ge in Hpoll.
      exists true, sleeps. repeat split; try lia; assumption.
Qed.

End Wait.

(** C3: a call of [get_queued_data] always comes to an end.  It sleeps [n]
    times 0.1 s, [n <= 39], and every poll before the last saw fewer than
    four buffers.  Either the last poll saw at least four buffers and the
    call goes on to the locked [get] (which hands out the oldest buffer
    when the lock is free), or all 40 polls saw fewer than four, 3.9 s have
    been slept, and the call ends in [sys.exit()] after the timeout
    message. *)
Theorem get_queued_data_waits_bounded (sched : schedule) (p : process) :
  exists (e : get_exit) (n : nat) (p' : process),
    get_queued_data sched p = Some (e, n, p') /\
    (n <= 39)%nat /\
    (forall i, (i < n)%nat -> qsize (after_sleeps sched p i) < 4) /\
    match e with
    | Timeout =>
        n = 39%nat /\ Z.of_nat n * sleep_ms = 3900 /\
        qsize (after_sleeps sched p n) < 4 /\
        p' = after_sleeps sched p n
    | Got r =>
        4 <= qsize (after_sleeps sched p n) /\
        (r, shared p') = locked_get (shared (after_sleeps sched p n)) /\
        (queueLock (shared (after_sleeps sched p n)) = false ->
         exists d, r = Data d /\
                   cbqueue (shared (after_sleeps sched p n))
                   = d :: cbqueue (shared p'))
    end.
Proof.
  destruct (wait_loop_ends sched p 40 40 0) as (b & n & Hw & _ & Hn & Hbefore & Hlast);
    [lia | cbn; lia | intros i Hi; lia |].
  unfold get_queued_data. cbn [after_sleeps] in Hw. rewrite Hw.
  destruct b.
  - destruct (locked_get (shared (after_sleeps sched p n))) as [r g] eqn:Hget.
    exists (Got r), n, (mkProcess g (stream_up (after_sleeps sched p n))).
    split; [reflexivity|]. split; [lia|]. split; [exact Hbefore|].
    split; [exact Hlast|]. split; [symmetry; exact Hget|].
    intros Hfree. unfold locked_get in Hget. rewrite Hfree in Hget.
    unfold qsize in Hlast.
    destruct (shared (after_sleeps sched p n)) as [led c q skip ct lk first];
      cbn in *.
    destruct q as [|d q]; [cbn in Hlast; lia|].
    injection Hget as <- <-. exists d. split; reflexivity.
  - destruct Hlast as [Hn39 Hq].
    exists Timeout, n, (after_sleeps sched p n).
    split; [reflexivity|]. split; [lia|]. split; [exact Hbefore|].
    split; [lia|]. split; [unfold sleep_ms; lia|]. split; [exact Hq|reflexivity].
Qed.

(** No buffer ever arrives: 40 polls, 39 sleeps, then the exit. *)
Example get_queued_data_stalled :
  get_queued_data (fun _ => []) (start 0) = Some (Timeout, 39%nat, start 0).
Proof. reflexivity. Qed.

(** Six buffers arrive during the fourth sleep: the first is tossed, the
    fifth poll sees five and the call returns the oldest. *)
Example get_queued_data_ready :
  match get_queued_data (fun i => if Nat.eqb i 3 then quiet 6 else [])
                        (start 0) with
  | Some (Got (Data d), n, p') =>
      d = silence /\ n = 4%nat /\ qsize p' = 4
  | _ => False
  end.
Proof. cbn. repeat split. Qed.

(** After the callback has left on a full queue the lock stays held, and
    the consumer's next call, finding 32 buffers, waits for the lock. *)
Example get_after_full_queue :
  let g := snd (callback silence 0 (congested 0)) in
  queueLock g = true /\
  get_queued_data (fun _ => []) (mkProcess g false)
  = Some (Got GetLockWait, 0%nat, mkProcess g false).
Proof. split; reflexivity. Qed.

End AfFacts.

(* ================================================================= *)
(** ** Properties of iq.py *)

Module IqFacts.
Import Iq.
Open Scope Z_scope.

(* ----------------------------------------------------------------- *)
(** *** Transform size *)

(** For any width that admits one of the candidates, the clamp leaves a
    size within the width. *)
Lemma clamp_size_le (wd size : Z) :
  128 <= wd -> fst (clamp_size wd size) <= wd.
Proof.
  intros Hw. unfold clamp_size.
  destruct (size >? wd) eqn:E; [|cbn; rewrite Z.gtb_ltb in E; apply Z.ltb_ge in E; exact E].
  unfold size_candidates; cbn [find].
  destruct (1024 <=? wd) eqn:E1; [apply Z.leb_le in E1; exact E1|].
  destruct (512 <=? wd) eqn:E2; [apply Z.leb_le in E2; exact E2|].
  destruct (256 <=? wd) eqn:E3; [apply Z.leb_le in E3; exact E3|].
  destruct (128 <=? wd) eqn:E4; [apply Z.leb_le in E4; exact E4|].
  apply Z.leb_gt in E4. lia.
Qed.

(** Below 128 pixels no candidate fits and the size is left as it is. *)
Lemma clamp_size_narrow (wd size : Z) :
  wd < 128 -> clamp_size wd size = (size, None).
Proof.
  intros Hw. unfold clamp_size.
  destruct (size >? wd); [|reflexivity].
  unfold size_candidates; cbn [find].
  repeat match goal with
         | |- context [?a <=? wd] =>
             let E := fresh in
             destruct (a <=? wd) eqn:E; [apply Z.leb_le in E; lia|]
         end.
  reflexivity.
Qed.

(** C7: with the width of the program's display, the size in use after the
    clamp is at most the width.  A size above the width is replaced by
    1024 = 2^10, the largest candidate that fits, and the old and new size
    are printed; a size within the width is left alone and nothing is
    printed. *)
Theorem fft_size_clamped (size : Z) :
  let n := fst (clamp_size w_spectra size) in
  let report := snd (clamp_size w_spectra size) in
  n <= w_spectra /\
  (size > w_spectra ->
   n = 2 ^ 10 /\ In n size_candidates /\
   (forall c, In c size_candidates -> c <= w_spectra -> c <= n) /\
   report = Some (size, n)) /\
  (size <= w_spectra -> n = size /\ report = None).
Proof.
  cbv zeta. split; [|split].
  - apply clamp_size_le. unfold w_spectra, w_main. lia.
  - intros Hbig. unfold clamp_size.
    destruct (size >? w_spectra) eqn:E;
      [|rewrite Z.gtb_ltb in E; apply Z.ltb_ge in E; lia].
    cbn. split; [reflexivity|]. split; [left; reflexivity|].
    split; [|reflexivity].
    intros c [<-|[<-|[<-|[<-|[]]]]] _; lia.
  - intros Hfit. unfold clamp_size.
    destruct (size >? w_spectra) eqn:E;
      [rewrite Z.gtb_ltb in E; apply Z.ltb_lt in E; lia|].
    split; reflexivity.
Qed.

Lemma fft_size_clamped_witness :
  clamp_size w_spectra 2048 = (1024, Some (2048, 1024)) /\
  fst (clamp_size w_spectra 2048) = 2 ^ 10.
Proof.
  split; [reflexivity|].
  assert (H : 2048 > w_spectra) by (vm_compute; reflexivity).
  exact (proj1 (proj1 (proj2 (fft_size_clamped 2048)) H)).
Defined.

(* ----------------------------------------------------------------- *)
(** *** Graticule.set_range *)



(* ----------------------------------------------------------------- *)
(** *** Graticule.make *)

Lemma py_range_10_length (start stop : Z) (i : nat) :
  (i < Z.to_nat ((stop - start + 10 - 1) / 10))%nat <->
  start + 10 * Z.of_nat i < stop.
Proof.
  split; intros H.
  - assert (Hi : Z.of_nat i + 1 <= (stop - start + 10 - 1) / 10) by lia.
    assert (Hm : 10 * ((stop - start + 10 - 1) / 10) <= stop - start + 10 - 1)
      by (apply Z.mul_div_le; lia).
    lia.
  - assert (Hq : Z.of_nat i + 1 <= (stop - start + 10 - 1) / 10)
      by (apply Z.div_le_lower_bound; lia).
    lia.
Qed.

Lemma py_range_10_In (start stop a : Z) :
  In a (py_range start stop 10) <->
  exists k, 0 <= k /\ a = start + 10 * k /\ a < stop.
Proof.
  unfold py_range. rewrite in_map_iff. split.
  - intros (i & <- & Hi). apply in_seq in Hi.
    exists (Z.of_nat i). split; [lia|]. split; [reflexivity|].
    apply py_range_10_length. lia.
  - intros (k & Hk & -> & Hlt). exists (Z.to_nat k).
    split; [f_equal; lia|]. apply in_seq. split; [lia|].
    cbn [Nat.add]. apply py_range_10_length. lia.
Qed.

Lemma py_range_10_first (start stop : Z) :
  start < stop -> In start (py_range start stop 10).
Proof.
  intros H. apply py_range_10_In. exists 0. lia.
Qed.

Lemma Qlt_bool_iff (x y : Q) : Qlt_bool x y = true <-> (x < y)%Q.
Proof.
  unfold Qlt_bool. rewrite negb_true_iff. split.
  - intros H. apply Qnot_le_lt. intros Hle.
    apply Qle_bool_iff in Hle. congruence.
  - intros H. destruct (Qle_bool y x) eqn:E; [|reflexivity].
    apply Qle_bool_iff in E. exfalso. exact (Qlt_not_le _ _ H E).
Qed.

(** The comparison of the loop, in Hz. *)
Lemma below_nyquist (c : Z) (self : Graticule) :
  (inject_Z c < srate2 self)%Q <-> 2000 * c < sample_rate self.
Proof.
  unfold srate2, frq_range, Qlt, Qdiv, Qmult, Qinv, inject_Z; cbn -[Z.mul].
  lia.
Qed.

Lemma Qlt_bool_hz (c : Z) (self : Graticule) :
  Qlt_bool (inject_Z c) (srate2 self) = (2000 * c <? sample_rate self).
Proof.
  destruct (2000 * c <? sample_rate self) eqn:E.
  - apply Qlt_bool_iff, below_nyquist, Z.ltb_lt, E.
  - destruct (Qlt_bool (inject_Z c) (srate2 self)) eqn:E'; [|reflexivity].
    apply Qlt_bool_iff, below_nyquist in E'. apply Z.ltb_ge in E. lia.
Qed.

(** The loop over the candidates, by sample rate. *)
Lemma for_xtick_max_hz (self : Graticule) :
  let sr := sample_rate self in
  for_xtick_max xtick_candidates (srate2 self) None =
  Some (if 1600000 <? sr then 800 else if 800000 <? sr then 400
        else if 400000 <? sr then 200 else if 200000 <? sr then 100
        else if 160000 <? sr then 80 else if 80000 <? sr then 40
        else if 40000 <? sr then 20 else 10).
Proof.
  cbv zeta. unfold xtick_candidates; cbn [for_xtick_max].
  rewrite !Qlt_bool_hz.
  change (2000 * 800) with 1600000. change (2000 * 400) with 800000.
  change (2000 * 200) with 400000. change (2000 * 100) with 200000.
  change (2000 * 80) with 160000. change (2000 * 40) with 80000.
  change (2000 * 20) with 40000. change (2000 * 10) with 20000.
  repeat match goal with
         | |- context [?a <? sample_rate self] =>
             destruct (a <? sample_rate self) eqn:?; try reflexivity
         end.
Qed.

(** [make] completes on a valid dB range and a non-zero sample rate. *)
Lemma make_returns (self : Graticule) :
  sp_min self < sp_max self -> sample_rate self <> 0 ->
  exists gr,
    make self = Returns gr /\
    map fst (db_lines gr) = py_range (sp_min self) (sp_max self) 10 /\
    for_xtick_max xtick_candidates (srate2 self) None = Some (xtick_max gr) /\
    map fst (freq_lines gr) =
      [ - inject_Z (xtick_max gr); - inject_Z (xtick_max gr) / 2; 0;
        inject_Z (xtick_max gr) / 2; inject_Z (xtick_max gr) ]%Q.
Proof.
  intros Hrange Hrate. unfold make.
  destruct (sp_max self - sp_min self =? 0) eqn:E0;
    [apply Z.eqb_eq in E0; lia|].
  destruct (rev (py_range (sp_min self) (sp_max self) 10)) as [|top l] eqn:Er.
  { pose proof (py_range_10_first _ _ Hrange) as Hin.
    apply in_rev in Hin. rewrite Er in Hin. destruct Hin. }
  destruct (Qeq_bool (frq_range self) 0) eqn:Ef.
  { apply Qeq_bool_iff in Ef. exfalso. apply Hrate.
    unfold frq_range, Qeq, Qdiv, Qmult, Qinv, inject_Z in Ef; cbn in Ef. lia. }
  rewrite for_xtick_max_hz; cbv zeta.
  eexists. split; [reflexivity|]. cbn [db_lines xtick_max freq_lines].
  split; [|split; reflexivity].
  rewrite map_map; cbn [fst]. apply map_id.
Qed.

Ltac split_rate self :=
  repeat match goal with
         | H : context [?a <? sample_rate self] |- _ =>
             let E := fresh "E" in
             destruct (a <? sample_rate self) eqn:E;
             [apply Z.ltb_lt in E | apply Z.ltb_ge in E]
         end.

(** C8, as the code has it: for a valid dB range and a sample rate above 20 kHz,
    [make] draws the dB lines at [sp_min], [sp_min + 10], ... below
    [sp_max], and takes as half-span the largest of 800, 400, 200, 100, 80,
    40, 20, 10 kHz that is smaller than [sample_rate / 2] in kHz; the
    vertical lines stand at minus and plus the half-span, half of it, and
    zero. *)
Theorem make_grid (self : Graticule) :
  sp_min self < sp_max self ->
  20000 < sample_rate self ->
  exists gr,
    make self = Returns gr /\
    (forall a, In a (map fst (db_lines gr)) <->
               exists k, 0 <= k /\ a = sp_min self + 10 * k /\ a < sp_max self) /\
    In (xtick_max gr) xtick_candidates /\
    (inject_Z (xtick_max gr) < srate2 self)%Q /\
    (forall c, In c xtick_candidates -> (inject_Z c < srate2 self)%Q ->
               c <= xtick_max gr) /\
    map fst (freq_lines gr) =
      [ - inject_Z (xtick_max gr); - inject_Z (xtick_max gr) / 2; 0;
        inject_Z (xtick_max gr) / 2; inject_Z (xtick_max gr) ]%Q.
Proof.
  intros Hrange Hrate.
  destruct (make_returns self Hrange ltac:(lia)) as (gr & Hm & Hdb & Hx & Hf).
  exists gr. split; [exact Hm|]. split.
  { intros a. rewrite Hdb. apply py_range_10_In. }
  rewrite for_xtick_max_hz in Hx; cbv zeta in Hx.
  injection Hx as Hx.
  assert (Hchoice :
            In (xtick_max gr) xtick_candidates /\
            2000 * xtick_max gr < sample_rate self /\
            forall c, In c xtick_candidates -> 2000 * c < sample_rate self ->
                      c <= xtick_max gr).
  { split_rate self; rewrite <- Hx;
      (split; [cbn; tauto|]); (split; [lia|]);
      intros c Hin Hc; cbn in Hin;
      repeat (destruct Hin as [<-|Hin]; [lia|]); destruct Hin. }
  destruct Hchoice as (Hin & Hlt & Hmax).
  split; [exact Hin|]. split; [apply below_nyquist; exact Hlt|].
  split; [|exact Hf].
  intros c Hc Hbelow. apply Hmax; [exact Hc|]. apply below_nyquist, Hbelow.
Qed.

Lemma make_grid_witness :
  exists gr,
    make grat_48k = Returns gr /\
    xtick_max gr = 20 /\
    map fst (db_lines gr)
    = [-120; -110; -100; -90; -80; -70; -60; -50; -40; -30].
Proof.
  assert (H1 : sp_min grat_48k < sp_max grat_48k) by (vm_compute; reflexivity).
  assert (H2 : 20000 < sample_rate grat_48k) by (vm_compute; reflexivity).
  destruct (make_grid grat_48k H1 H2) as (gr & Hm & _).
  exists gr. split; [exact Hm|].
  assert (E : Returns gr = make grat_48k) by (symmetry; exact Hm).
  vm_compute in E. injection E as ->. split; reflexivity.
Defined.

(** Against C8 as worded: at 16 kHz the half-bandwidth is 8 kHz, [make]
    completes and takes 10 kHz, which is not smaller than the
    half-bandwidth (no candidate is). *)
Lemma make_16k_half_span_above_nyquist :
  match make grat_16k with
  | Returns gr =>
      xtick_max gr = 10 /\ (srate2 grat_16k == 8)%Q /\
      ~ (inject_Z (xtick_max gr) < srate2 grat_16k)%Q
  | Raises _ _ => False
  end.
Proof.
  cbn. split; [reflexivity|]. split; [reflexivity|].
  intros H. apply below_nyquist in H. cbn in H. lia.
Qed.

(** C10: for a valid dB range and a sample rate of at most 20 kHz (other
    than zero, with which the program does not get as far as building a
    graticule), [make] completes with a half-span of 10 kHz: no candidate
    is smaller than the half-bandwidth, the loop runs to its end, and the
    last candidate is used. *)
Theorem make_small_sample_rate (self : Graticule) :
  sp_min self < sp_max self ->
  sample_rate self <> 0 ->
  sample_rate self <= 20000 ->
  exists gr,
    make self = Returns gr /\
    xtick_max gr = 10 /\
    (forall c, In c xtick_candidates -> ~ (inject_Z c < srate2 self)%Q) /\
    map fst (freq_lines gr) =
      [ - inject_Z 10; - inject_Z 10 / 2; 0; inject_Z 10 / 2; inject_Z 10 ]%Q.
Proof.
  intros Hrange Hnz Hrate.
  destruct (make_returns self Hrange Hnz) as (gr & Hm & _ & Hx & Hf).
  rewrite for_xtick_max_hz in Hx; cbv zeta in Hx. injection Hx as Hx.
  assert (H10 : xtick_max gr = 10) by (split_rate self; lia).
  exists gr. split; [exact Hm|]. split; [exact H10|].
  split; [|rewrite Hf, H10; reflexivity].
  intros c Hin Hc. apply below_nyquist in Hc. cbn in Hin.
  repeat (destruct Hin as [<-|Hin]; [lia|]). destruct Hin.
Qed.

Lemma make_small_sample_rate_witness :
  exists gr, make grat_16k = Returns gr /\ xtick_max gr = 10.
Proof.
  assert (H1 : sp_min grat_16k < sp_max grat_16k) by (vm_compute; reflexivity).
  assert (H2 : sample_rate grat_16k <> 0) by (vm_compute; discriminate).
  assert (H3 : sample_rate grat_16k <= 20000) by (vm_compute; discriminate).
  destruct (make_small_sample_rate grat_16k H1 H2 H3) as (gr & Hm & Hx & _).
  exists gr. split; [exact Hm | exact Hx].
Defined.

End IqFacts.

(* ================================================================= *)
(** ** More on iq_af.py *)

Module AfMore.
Import IqAf AfFacts.

(* ----------------------------------------------------------------- *)
(** *** First in, first out *)

Lemma run_cons (ev : event) (evs : list event) (p : process) :
  run (ev :: evs) p = run evs (step ev p).
Proof. reflexivity. Qed.

(** One event: what it hands out, followed by what is then pending, is
    what was pending followed by what it queued. *)
Lemma step_conserves (ev : event) (p : process) :
  handed_out ev p ++ cbqueue (shared (step ev p))
  = cbqueue (shared p) ++ queued_by ev p.
Proof.
  destruct ev as [d st|]; cbn [handed_out queued_by step].
  - unfold deliver. destruct (stream_up p); [|cbn; rewrite app_nil_r; reflexivity].
    cbn [run_stream app].
    pose proof (callback_queue d st (shared p)) as Hq; cbv zeta in Hq.
    destruct (callback d st (shared p)) as [e g1]; cbn [fst snd] in Hq |- *.
    assert (Hs : cbqueue g1 = cbqueue (shared p)
                 ++ match e with Queued => [d] | _ => [] end).
    { destruct Hq as [[Hne ->]|(-> & _ & ->)]; [|reflexivity].
      destruct e; try (rewrite app_nil_r; reflexivity). congruence. }
    destruct (terminal e); cbn [shared]; exact Hs.
  - cbn [shared]. unfold locked_get.
    destruct (shared p) as [led n q skip ct lk first]; cbn.
    destruct lk; cbn; [rewrite app_nil_r; reflexivity|].
    destruct q as [|d q]; cbn; [reflexivity|].
    rewrite app_nil_r. reflexivity.
Qed.

(** X1: along any interleaving of callback invocations and consumer gets,
    the buffers handed to the consumer, followed by the buffers still
    pending, are exactly the buffers pending at the start followed by the
    buffers the callback queued, in the same order: nothing is lost,
    duplicated or reordered. *)
Theorem queue_is_fifo (evs : list event) :
  forall p,
    delivered evs p ++ cbqueue (shared (run evs p))
    = cbqueue (shared p) ++ accepted evs p.
Proof.
  induction evs as [|ev evs IH]; intros p.
  - cbn. rewrite app_nil_r. reflexivity.
  - rewrite run_cons. cbn [delivered accepted].
    rewrite <- app_assoc, IH, !app_assoc, step_conserves. reflexivity.
Qed.

(* ----------------------------------------------------------------- *)
(** *** The lock *)

(** X2: a callback that finds the lock free never waits for it, and leaves
    it held exactly when it leaves through the full-queue exit; on every
    other path the lock is free again afterwards. *)
Theorem lock_held_only_after_full (in_data : buffer) (status : Z)
  (g : globals) :
  queueLock g = false ->
  fst (callback in_data status g) <> LockWait /\
  queueLock (snd (callback in_data status g))
  = cb_exit_eqb (fst (callback in_data status g)) ExitFull.
Proof.
  intros Hfree. rewrite callback_unfold; cbv zeta.
  destruct (skip_policy (cbskip g) (cbskip_ct g)) as [take ct].
  unfold counted, enqueue.
  destruct g as [led n q skip c lk first]; cbn in *. subst lk.
  destruct take; cbn; by_cases; split; (reflexivity || discriminate).
Qed.

Lemma lock_held_only_after_full_witness :
  queueLock (snd (callback silence 0 (congested 0))) = true /\
  queueLock (snd (callback silence 0 (running 0))) = false.
Proof.
  assert (H1 : queueLock (congested 0) = false) by reflexivity.
  assert (H2 : queueLock (running 0) = false) by reflexivity.
  split.
  - exact (proj2 (lock_held_only_after_full silence 0 (congested 0) H1)).
  - exact (proj2 (lock_held_only_after_full silence 0 (running 0) H2)).
Defined.

Lemma exit_full_state (in_data : buffer) (status : Z) (g : globals) :
  fst (callback in_data status g) = ExitFull ->
  queueLock (snd (callback in_data status g)) = true /\
  MAXQUEUELEN <= Z.of_nat (length (cbqueue (snd (callback in_data status g)))).
Proof.
  rewrite callback_unfold; cbv zeta.
  destruct (skip_policy (cbskip g) (cbskip_ct g)) as [take ct].
  unfold counted, enqueue.
  destruct g as [led n q skip c lk first]; cbn.
  destruct take; cbn; by_cases; intros H; try discriminate H;
    (split; [reflexivity|]); apply Z.leb_le; assumption.
Qed.

(** X3: once the callback has left through the full-queue exit, the lock
    is never released: whatever arrives afterwards, the next call of
    [get_queued_data] sees a full queue, does not sleep at all, and waits
    for the lock without getting any buffer. *)
Theorem get_after_full_queue_waits (in_data : buffer) (status : Z)
  (g : globals) (sched : schedule) :
  fst (callback in_data status g) = ExitFull ->
  let p := deliver [(in_data, status)] (mkProcess g true) in
  stream_up p = false /\
  get_queued_data sched p = Some (Got GetLockWait, 0%nat, p).
Proof.
  intros Hexit p.
  destruct (exit_full_state in_data status g Hexit) as [Hlk Hfull].
  subst p. unfold deliver; cbn [stream_up shared run_stream].
  destruct (callback in_data status g) as [e g1]; cbn [fst snd] in *.
  subst e. cbn [terminal existsb orb negb stream_up].
  split; [reflexivity|].
  unfold get_queued_data. cbn [wait_loop]. unfold qsize; cbn [shared].
  destruct (Z.of_nat (length (cbqueue g1)) <? 4) eqn:E;
    [apply Z.ltb_lt in E; unfold MAXQUEUELEN in Hfull; lia|].
  cbn [shared stream_up]. unfold locked_get. rewrite Hlk. reflexivity.
Qed.

Lemma get_after_full_queue_waits_witness :
  get_queued_data (fun _ => quiet 1)
    (deliver [(silence, 0)] (mkProcess (congested 0) true))
  = Some (Got GetLockWait, 0%nat,
          deliver [(silence, 0)] (mkProcess (congested 0) true)).
Proof.
  assert (H : fst (callback silence 0 (congested 0)) = ExitFull)
    by reflexivity.
  exact (proj2 (get_after_full_queue_waits silence 0 (congested 0)
                  (fun _ => quiet 1) H)).
Defined.

(* ----------------------------------------------------------------- *)
(** *** The consumer on a stopped stream *)

Lemma after_sleeps_stopped (sched : schedule) (p : process) (n : nat) :
  stream_up p = false -> after_sleeps sched p n = p.
Proof.
  intros Hdown. induction n as [|n IH]; [reflexivity|].
  cbn [after_sleeps]. rewrite IH. unfold deliver. rewrite Hdown. reflexivity.
Qed.

(** X4: with the stream stopped and fewer than four buffers pending, a
    call of [get_queued_data] sleeps 39 times and ends in the timeout
    exit, whatever is pending: the last one to three buffers of a stream
    are never handed out. *)
Theorem get_queued_data_leftover (sched : schedule) (p : process) :
  stream_up p = false ->
  qsize p < 4 ->
  get_queued_data sched p = Some (Timeout, 39%nat, p).
Proof.
  intros Hdown Hfew.
  destruct (wait_loop_ends sched p 40 40 0)
    as (b & n & Hw & _ & Hn & _ & Hlast); [lia | cbn; lia | intros i Hi; lia |].
  rewrite !after_sleeps_stopped in * by assumption.
  cbn [after_sleeps] in Hw. unfold get_queued_data. rewrite Hw.
  destruct b; [lia|]. destruct Hlast as [Hn39 _].
  replace n with 39%nat by lia. reflexivity.
Qed.

Lemma get_queued_data_leftover_witness :
  let p := mkProcess (set_cbqueue (repeat silence 3) (running 0)) false in
  get_queued_data (fun _ => quiet 5) p = Some (Timeout, 39%nat, p).
Proof.
  intros p.
  assert (H1 : stream_up p = false) by reflexivity.
  assert (H2 : qsize p < 4) by (vm_compute; reflexivity).
  exact (get_queued_data_leftover (fun _ => quiet 5) p H1 H2).
Defined.

(* ----------------------------------------------------------------- *)
(** *** The overflow flag *)

Lemma callback_led (in_data : buffer) (status : Z) (g : globals) :
  led_underrun_ct (snd (callback in_data status g))
  = if status =? paInputOverflow then 1 else led_underrun_ct g.
Proof.
  rewrite callback_unfold; cbv zeta.
  destruct (skip_policy (cbskip g) (cbskip_ct g)) as [take ct].
  unfold counted, enqueue.
  destruct g as [led n q skip c lk first]; cbn.
  destruct take; cbn; by_cases; reflexivity.
Qed.

(** X5: after a stream of buffers, [led_underrun_ct] is 1 if any buffer
    that reached the callback carried the input-overflow status, whether
    that buffer was then queued, discarded or dropped, and is otherwise
    what it was before: the callback raises the flag and never lowers
    it. *)
Theorem led_after_stream (bufs : list (buffer * Z)) :
  forall g es g',
    run_stream bufs g = (es, g') ->
    led_underrun_ct g'
    = if existsb overflowed (firstn (length es) bufs) then 1
      else led_underrun_ct g.
Proof.
  induction bufs as [|[d st] rest IH]; intros g es g' Hrun.
  - cbn in Hrun. injection Hrun as <- <-. reflexivity.
  - cbn [run_stream] in Hrun.
    pose proof (callback_led d st g) as Hled.
    destruct (callback d st g) as [e g1]; cbn [snd] in Hled.
    destruct (terminal e).
    + injection Hrun as <- <-. cbn [length firstn existsb].
      unfold overflowed; cbn [snd].
      rewrite Hled. destruct (st =? paInputOverflow); reflexivity.
    + destruct (run_stream rest g1) as [es1 g2] eqn:Hrest.
      injection Hrun as <- <-. cbn [length firstn existsb].
      rewrite (IH g1 es1 g2 Hrest), Hled.
      change (overflowed (d, st)) with (st =? paInputOverflow).
      destruct (st =? paInputOverflow); cbn [orb];
        destruct (existsb overflowed (firstn (length es1) rest)); reflexivity.
Qed.

(* ----------------------------------------------------------------- *)
(** *** skip = 1 and skip = -1 *)

Lemma kept_cons_map (e : cb_exit) (es : list cb_exit) :
  map kept (e :: es) = kept e :: map kept es.
Proof. reflexivity. Qed.

(** A run in which every buffer was delivered shows the decisions of the
    skip policy. *)
Lemma run_stream_trace (bufs : list (buffer * Z)) :
  forall g es g',
    run_stream bufs g = (es, g') ->
    length es = length bufs ->
    map kept es = skip_trace (cbskip g) (cbskip_ct g) (length bufs).
Proof.
  induction bufs as [|[d st] rest IH]; intros g es g' Hrun Hlen.
  - cbn in Hrun. injection Hrun as <- <-. reflexivity.
  - cbn [run_stream] in Hrun.
    destruct (callback_skip d st g) as [Hs Hp].
    destruct (callback d st g) as [e g1]; cbn [fst snd] in Hs, Hp.
    cbn [length skip_trace]. rewrite <- Hp.
    destruct (terminal e).
    + injection Hrun as <- <-. cbn [length] in Hlen.
      destruct rest; [reflexivity|discriminate].
    + destruct (run_stream rest g1) as [es1 g2] eqn:Hrest.
      injection Hrun as <- <-. cbn [length] in Hlen.
      rewrite kept_cons_map, (IH g1 es1 g2 Hrest) by lia.
      rewrite Hs. reflexivity.
Qed.

Lemma skip_trace_opposite (n : nat) :
  forall ct, skip_trace 1 ct n = map negb (skip_trace (-1) ct n).
Proof.
  induction n as [|n IH]; intros ct; [reflexivity|].
  cbn [skip_trace]. unfold skip_policy.
  change (0 <? 1) with true. change (0 <? -1) with false.
  change (-1 <? 0) with true. change (- -1) with 1. cbv beta iota.
  destruct (1 <=? ct); cbn [map negb]; rewrite IH; reflexivity.
Qed.

(** X6: "skip=1 and skip=-1 have same effect" as far as the rate goes, but
    not buffer by buffer: started with the same counter on streams of the
    same length, all of whose buffers reach the callback, [cbskip = 1]
    keeps exactly the buffers that [cbskip = -1] discards. *)
Theorem skip_plus_minus_one (bufs1 bufs2 : list (buffer * Z))
  (g1 g2 g1' g2' : globals) (es1 es2 : list cb_exit) :
  cbskip g1 = 1 -> cbskip g2 = -1 ->
  cbskip_ct g1 = cbskip_ct g2 ->
  length bufs1 = length bufs2 ->
  run_stream bufs1 g1 = (es1, g1') -> length es1 = length bufs1 ->
  run_stream bufs2 g2 = (es2, g2') -> length es2 = length bufs2 ->
  map kept es1 = map negb (map kept es2).
Proof.
  intros H1 H2 Hct Hlen Hr1 Hl1 Hr2 Hl2.
  rewrite (run_stream_trace bufs1 g1 es1 g1' Hr1 Hl1).
  rewrite (run_stream_trace bufs2 g2 es2 g2' Hr2 Hl2).
  rewrite H1, H2, Hct, Hlen. apply skip_trace_opposite.
Qed.

Lemma skip_plus_minus_one_witness :
  map kept (fst (run_stream (quiet 4) (running 1)))
  = map negb (map kept (fst (run_stream (quiet 4) (running (-1))))).
Proof.
  exact (skip_plus_minus_one (quiet 4) (quiet 4)
           (running 1) (running (-1))
           (snd (run_stream (quiet 4) (running 1)))
           (snd (run_stream (quiet 4) (running (-1))))
           (fst (run_stream (quiet 4) (running 1)))
           (fst (run_stream (quiet 4) (running (-1))))
           eq_refl eq_refl eq_refl eq_refl eq_refl eq_refl eq_refl eq_refl).
Defined.

(* ----------------------------------------------------------------- *)
(** *** The skip counter across a restart *)

Lemma callback_counter (in_data : buffer) (status : Z) (g : globals) :
  cbskip g <> 0 -> 0 <= cbskip_ct g ->
  0 <= cbskip_ct (snd (callback in_data status g)) <= Z.abs (cbskip g).
Proof.
  intros Hnz Hct.
  destruct (callback_skip in_data status g) as [_ Hp].
  assert (E : cbskip_ct (snd (callback in_data status g))
              = snd (skip_policy (cbskip g) (cbskip_ct g)))
    by (rewrite <- Hp; reflexivity).
  rewrite E. unfold skip_policy.
  destruct (0 <? cbskip g) eqn:Epos.
  - apply Z.ltb_lt in Epos.
    destruct (cbskip g <=? cbskip_ct g) eqn:Ege; cbn [snd];
      [lia | apply Z.leb_gt in Ege; lia].
  - apply Z.ltb_ge in Epos.
    destruct (cbskip g <? 0) eqn:Eneg; [|apply Z.ltb_ge in Eneg; lia].
    destruct (- cbskip g <=? cbskip_ct g) eqn:Ege; cbn [snd];
      [lia | apply Z.leb_gt in Ege; lia].
Qed.

Lemma run_stream_counter (bufs : list (buffer * Z)) :
  forall g es g',
    cbskip g <> 0 -> 0 <= cbskip_ct g ->
    run_stream bufs g = (es, g') ->
    es <> [] ->
    cbskip g' = cbskip g /\ 0 <= cbskip_ct g' <= Z.abs (cbskip g).
Proof.
  induction bufs as [|[d st] rest IH]; intros g es g' Hnz Hct Hrun Hne.
  - cbn in Hrun. injection Hrun as <- <-. congruence.
  - cbn [run_stream] in Hrun.
    pose proof (callback_counter d st g Hnz Hct) as Hc.
    destruct (callback_skip d st g) as [Hs _].
    destruct (callback d st g) as [e g1]; cbn [fst snd] in Hs, Hc.
    destruct (terminal e).
    + injection Hrun as <- <-. split; assumption.
    + destruct (run_stream rest g1) as [es1 g2] eqn:Hrest.
      injection Hrun as <- <-.
      destruct rest as [|b rest'].
      * cbn in Hrest. injection Hrest as <- <-. split; assumption.
      * destruct (IH g1 es1 g2) as [Hs2 Hc2];
          [congruence | lia | exact Hrest | |].
        { cbn [run_stream] in Hrest. destruct b as [d' st'].
          destruct (callback d' st' g1) as [e' g1'].
          destruct (terminal e'); [injection Hrest as <- _; discriminate|].
          destruct (run_stream rest' g1').
          injection Hrest as <- _. discriminate. }
        rewrite Hs in Hs2, Hc2. split; assumption.
Qed.

(** X7: [Restart] only replaces [cbskip]; the counter keeps its value,
    which may be beyond the new threshold.  Whatever the counter was, with
    a new skip value other than 0, as soon as one buffer has reached the
    callback the counter lies between 0 and [|cbskip|], and it stays there
    for the rest of the stream. *)
Theorem counter_in_range_after_restart (opt_skip : Z) (g g' : globals)
  (bufs : list (buffer * Z)) (es : list cb_exit) :
  opt_skip <> 0 ->
  0 <= cbskip_ct g ->
  run_stream bufs (Restart opt_skip g) = (es, g') ->
  es <> [] ->
  cbskip g' = opt_skip /\ 0 <= cbskip_ct g' <= Z.abs opt_skip.
Proof.
  intros Hnz Hct Hrun Hne.
  exact (run_stream_counter bufs (Restart opt_skip g) es g' Hnz Hct Hrun Hne).
Qed.

Lemma counter_in_range_after_restart_witness :
  let g := set_cbskip_ct 5 (running 7) in
  cbskip_ct (Restart 2 g) = 5 /\
  0 <= cbskip_ct (snd (run_stream (quiet 1) (Restart 2 g))) <= 2.
Proof.
  intros g. split; [reflexivity|].
  assert (H1 : 2 <> 0) by discriminate.
  assert (H2 : 0 <= cbskip_ct g) by (vm_compute; discriminate).
  assert (H3 : run_stream (quiet 1) (Restart 2 g)
               = (fst (run_stream (quiet 1) (Restart 2 g)),
                  snd (run_stream (quiet 1) (Restart 2 g))))
    by reflexivity.
  assert (H4 : fst (run_stream (quiet 1) (Restart 2 g)) <> [])
    by (vm_compute; discriminate).
  exact (proj2 (counter_in_range_after_restart 2 g _ (quiet 1) _ H1 H2 H3 H4)).
Defined.

Lemma led_after_stream_witness :
  led_underrun_ct
    (snd (run_stream [(silence, 0); (silence, 2); (silence, 0)]
                     (module_globals (-1)))) = 1.
Proof.
  exact (led_after_stream [(silence, 0); (silence, 2); (silence, 0)]
           (module_globals (-1)) _ _ eq_refl).
Defined.

(** The start-up discard over a stream ([AfFacts.startup_discards]) on the
    module as loaded with [cbskip = -1]: of three buffers two are
    discarded by the skip policy and the one kept is tossed. *)
Lemma startup_discards_witness :
  cbqueue (snd (run_stream (quiet 3) (module_globals (-1)))) = [] /\
  cbfirst (snd (run_stream (quiet 3) (module_globals (-1)))) = 0.
Proof.
  assert (H : kept_count (fst (run_stream (quiet 3) (module_globals (-1))))
              <= cbfirst (module_globals (-1)))
    by (vm_compute; discriminate).
  destruct (startup_discards (quiet 3) (module_globals (-1)) _ _ eq_refl H)
    as (Hq & Hf & _).
  split; [exact Hq | exact Hf].
Defined.

End AfMore.

(* ================================================================= *)
(** ** Properties of the handlers of iq.py *)

Module UiFacts.
Import IqUi.

(* ----------------------------------------------------------------- *)
(** *** The dB range under drags and keys *)

(** Setting and making the graticule again succeeds on a valid range and
    puts the display in step. *)
Lemma regrid_in_step (s : spectrum_state) :
  sp_min s < sp_max s ->
  Iq.sample_rate (mygraticule s) <> 0 ->
  exists s',
    regrid s = Done s' /\ in_step s' /\
    sp_min s' = sp_min s /\ sp_max s' = sp_max s /\
    size s' = size s /\ touch s' = touch s /\
    Iq.sample_rate (mygraticule s') = Iq.sample_rate (mygraticule s).
Proof.
  intros Hrange Hrate. unfold regrid, Iq.set_range.
  destruct (sp_max s >? sp_min s) eqn:E;
    [|rewrite Z.gtb_ltb in E; apply Z.ltb_ge in E; lia].
  cbn [negb]. cbv zeta.
  set (self := Iq.mkGraticule _ _ _ _ _).
  destruct (IqFacts.make_returns self) as (gr & Hm & _); [exact Hrange|exact Hrate|].
  rewrite Hm. eexists. split; [reflexivity|].
  unfold in_step; cbn. repeat split; try assumption; reflexivity.
Qed.

Lemma in_step_touch (msg : feedback) (timer : Z) (s : spectrum_state) :
  in_step s -> in_step (set_touch msg timer s).
Proof. unfold in_step; cbn. tauto. Qed.

Lemma in_step_size (v : Z) (s : spectrum_state) :
  in_step s -> in_step (set_size v s).
Proof. unfold in_step; cbn. tauto. Qed.

Ltac regrid_with s0 :=
  let s1 := fresh "s1" in
  let Hr := fresh "Hr" in
  let Hi := fresh "Hi" in
  destruct (regrid_in_step s0) as (s1 & Hr & Hi & ? & ? & ? & ? & ?);
  [cbn; lia | cbn; assumption |];
  rewrite Hr; cbn [and_then];
  eexists; split; [reflexivity|];
  split; [apply in_step_touch; exact Hi|];
  cbn in *; repeat split; lia.

Lemma drag_upper_limit_in_step (dx : Q) (s : spectrum_state) :
  in_step s ->
  exists s',
    drag_upper_limit dx s = Done s' /\ in_step s' /\
    sp_min s' = sp_min s /\ Z.abs (sp_max s' - sp_max s) <= 5 /\
    size s' = size s /\
    Iq.sample_rate (mygraticule s') = Iq.sample_rate (mygraticule s).
Proof.
  intros Hin. pose proof Hin as (H1 & H2 & Hrange & Hrate & Hsurf).
  unfold drag_upper_limit.
  destruct (Qgt_bool (Qabs dx) 5);
    [|exists s; repeat split; try assumption; lia].
  destruct (Qgt_bool dx 0).
  - destruct (sp_max s <? 0) eqn:E;
      [|exists s; repeat split; try assumption; lia].
    regrid_with (set_sp_max (sp_max s + 5) s).
  - destruct ((sp_max s >? -130) && (sp_max s >? sp_min s + 10)) eqn:E;
      [|exists s; repeat split; try assumption; lia].
    apply andb_true_iff in E. destruct E as [_ E].
    rewrite Z.gtb_ltb in E. apply Z.ltb_lt in E.
    regrid_with (set_sp_max (sp_max s - 5) s).
Qed.

Lemma drag_lower_limit_in_step (dy : Q) (s : spectrum_state) :
  in_step s ->
  exists s',
    drag_lower_limit dy s = Done s' /\ in_step s' /\
    sp_max s' = sp_max s /\ Z.abs (sp_min s' - sp_min s) <= 5 /\
    size s' = size s /\
    Iq.sample_rate (mygraticule s') = Iq.sample_rate (mygraticule s).
Proof.
  intros Hin. pose proof Hin as (H1 & H2 & Hrange & Hrate & Hsurf).
  unfold drag_lower_limit.
  destruct (Qgt_bool dy 0).
  - destruct (sp_min s <? sp_max s - 10) eqn:E;
      [|exists s; repeat split; try assumption; lia].
    apply Z.ltb_lt in E.
    regrid_with (set_sp_min (sp_min s + 5) s).
  - destruct (sp_min s >? -140) eqn:E;
      [|exists s; repeat split; try assumption; lia].
    regrid_with (set_sp_min (sp_min s - 5) s).
Qed.

Lemma drag_fft_size_in_step (dx dy : Q) (s : spectrum_state) :
  in_step s ->
  in_step (drag_fft_size dx dy s) /\
  sp_min (drag_fft_size dx dy s) = sp_min s /\
  sp_max (drag_fft_size dx dy s) = sp_max s.
Proof.
  intros Hin. unfold drag_fft_size.
  repeat match goal with
         | |- context [if ?b then _ else _] => destruct b
         end;
    (split; [try apply in_step_touch; try apply in_step_size; exact Hin|]);
    split; reflexivity.
Qed.

(** X8: a drag on the spectrum never ends the program and never leaves
    the display out of step: starting in step (graticule and globals
    agree on a valid range, surface made from it), the handler returns
    with the display in step again, each limit moved by at most 5 dB. *)
Theorem spectrum_drag_keeps_range (x y dx dy : Q) (s : spectrum_state) :
  in_step s ->
  exists s',
    handle_spectrum_touch_controls x y dx dy s = Done s' /\
    in_step s' /\
    Z.abs (sp_min s' - sp_min s) <= 5 /\
    Z.abs (sp_max s' - sp_max s) <= 5.
Proof.
  intros Hin. unfold handle_spectrum_touch_controls.
  destruct (drag_upper_limit_in_step dx s Hin)
    as (s1 & -> & Hin1 & Hmin1 & Hmax1 & _).
  cbn [and_then].
  destruct (Qgt_bool (Qabs dy) 5);
    [|exists s1; split; [reflexivity|]; split; [exact Hin1|]; lia].
  destruct (drag_lower_limit_in_step dy s1 Hin1)
    as (s2 & -> & Hin2 & Hmax2 & Hmin2 & _).
  cbn [and_then].
  destruct (drag_fft_size_in_step dx dy s2 Hin2) as (Hin3 & Hmin3 & Hmax3).
  eexists. split; [reflexivity|]. split; [exact Hin3|]. lia.
Qed.

Lemma spectrum_drag_keeps_range_witness :
  exists s',
    handle_spectrum_touch_controls 100 50 (-8) 7 spectrum_48k = Done s' /\
    in_step s'.
Proof.
  assert (H : in_step spectrum_48k)
    by (unfold in_step; repeat split; vm_compute;
        (reflexivity || discriminate)).
  destruct (spectrum_drag_keeps_range 100 50 (-8) 7 spectrum_48k H)
    as (s' & Hd & Hi & _).
  exists s'. split; [exact Hd | exact Hi].
Defined.

(** X9: the dB keys ([u]/[U], [l]/[L], and the arrows of help phase 2)
    never end the program either: from a display in step, each key
    returns with the display in step, the limit it acts on moved by 10 dB
    or not at all and the other limit untouched. *)
Theorem db_keys_keep_range (k : db_key) (s : spectrum_state) :
  in_step s ->
  exists s',
    keydown_db k s = Done s' /\ in_step s' /\
    match k with
    | UpperUp => sp_min s' = sp_min s /\
                 (sp_max s' = sp_max s \/ sp_max s' = sp_max s + 10)
    | UpperDown => sp_min s' = sp_min s /\
                   (sp_max s' = sp_max s \/ sp_max s' = sp_max s - 10)
    | LowerUp => sp_max s' = sp_max s /\
                 (sp_min s' = sp_min s \/ sp_min s' = sp_min s + 10)
    | LowerDown => sp_max s' = sp_max s /\
                   (sp_min s' = sp_min s \/ sp_min s' = sp_min s - 10)
    end.
Proof.
  intros (H1 & H2 & Hrange & Hrate & Hsurf).
  destruct k; unfold keydown_db.
  - destruct (sp_max s <? 0) eqn:E.
    + destruct (regrid_in_step (set_sp_max (sp_max s + 10) s))
        as (s1 & -> & Hi & Hmin & Hmax & _); [cbn; lia | exact Hrate |].
      exists s1. cbn in Hmin, Hmax.
      split; [reflexivity|]. split; [exact Hi|]. split; [assumption|auto].
    + destruct (regrid_in_step s) as (s1 & -> & Hi & Hmin & Hmax & _);
        [exact Hrange | exact Hrate |].
      exists s1.
      split; [reflexivity|]. split; [exact Hi|]. split; [assumption|auto].
  - destruct ((sp_max s >? -130) && (sp_max s >? sp_min s + 10)) eqn:E.
    + apply andb_true_iff in E. destruct E as [_ E].
      rewrite Z.gtb_ltb in E. apply Z.ltb_lt in E.
      destruct (regrid_in_step (set_sp_max (sp_max s - 10) s))
        as (s1 & -> & Hi & Hmin & Hmax & _); [cbn; lia | exact Hrate |].
      exists s1. cbn in Hmin, Hmax.
      split; [reflexivity|]. split; [exact Hi|]. split; [assumption|auto].
    + destruct (regrid_in_step s) as (s1 & -> & Hi & Hmin & Hmax & _);
        [exact Hrange | exact Hrate |].
      exists s1.
      split; [reflexivity|]. split; [exact Hi|]. split; [assumption|auto].
  - destruct (sp_min s <? sp_max s - 10) eqn:E.
    + apply Z.ltb_lt in E.
      destruct (regrid_in_step (set_sp_min (sp_min s + 10) s))
        as (s1 & -> & Hi & Hmin & Hmax & _); [cbn; lia | exact Hrate |].
      exists s1. cbn in Hmin, Hmax.
      split; [reflexivity|]. split; [exact Hi|]. split; [assumption|auto].
    + destruct (regrid_in_step s) as (s1 & -> & Hi & Hmin & Hmax & _);
        [exact Hrange | exact Hrate |].
      exists s1.
      split; [reflexivity|]. split; [exact Hi|]. split; [assumption|auto].
  - destruct (sp_min s >? -140) eqn:E.
    + destruct (regrid_in_step (set_sp_min (sp_min s - 10) s))
        as (s1 & -> & Hi & Hmin & Hmax & _); [cbn; lia | exact Hrate |].
      exists s1. cbn in Hmin, Hmax.
      split; [reflexivity|]. split; [exact Hi|]. split; [assumption|auto].
    + destruct (regrid_in_step s) as (s1 & -> & Hi & Hmin & Hmax & _);
        [exact Hrange | exact Hrate |].
      exists s1.
      split; [reflexivity|]. split; [exact Hi|]. split; [assumption|auto].
Qed.

Lemma db_keys_keep_range_witness :
  exists s',
    keydown_db UpperDown spectrum_48k = Done s' /\
    sp_min s' = -120 /\ sp_max s' = -30.
Proof.
  assert (H : in_step spectrum_48k)
    by (unfold in_step; repeat split; vm_compute;
        (reflexivity || discriminate)).
  destruct (db_keys_keep_range UpperDown spectrum_48k H)
    as (s' & Hd & _ & Hmin & Hmax).
  exists s'. split; [exact Hd|]. split; [exact Hmin|].
  destruct Hmax as [Hmax|Hmax]; [|exact Hmax].
  exfalso. assert (E : Done s' = keydown_db UpperDown spectrum_48k)
    by (symmetry; exact Hd).
  vm_compute in E. injection E as ->. discriminate Hmax.
Defined.

(* ----------------------------------------------------------------- *)
(** *** The transform size under touch *)

(** X10: the diagonal drag keeps [opt.size] a power of two between 64 and
    1024 (and so within the display width) if it was one. *)
Theorem fft_drag_keeps_power_of_two (dx dy : Q) (s : spectrum_state)
  (k : Z) :
  6 <= k <= 10 ->
  size s = 2 ^ k ->
  exists k',
    6 <= k' <= 10 /\
    size (drag_fft_size dx dy s) = 2 ^ k' /\
    size (drag_fft_size dx dy s) <= Iq.w_spectra.
Proof.
  intros Hk Hs.
  assert (Hw : 2 ^ 10 <= Iq.w_spectra) by (vm_compute; discriminate).
  assert (Hmono : forall j, 6 <= j <= 10 -> 2 ^ j <= 2 ^ 10)
    by (intros j Hj; apply Z.pow_le_mono_r; lia).
  unfold drag_fft_size.
  destruct (Qgt_bool (Qabs dx) 10 && Qgt_bool (Qabs dy) 10);
    [|exists k; rewrite Hs; specialize (Hmono k Hk); repeat split; lia].
  destruct (Qgt_bool dx 0 && Iq.Qlt_bool dy 0).
  - cbv zeta.
    destruct ((size s * 2 <=? Iq.w_spectra) && (size s * 2 <=? 1024)) eqn:E;
      [|exists k; rewrite Hs; specialize (Hmono k Hk); repeat split; lia].
    apply andb_true_iff in E. destruct E as [E1 E2].
    apply Z.leb_le in E1, E2. cbn [size set_touch set_size].
    assert (Hk1 : k + 1 <= 10).
    { destruct (Z_le_gt_dec (k + 1) 10) as [|Hgt]; [assumption|].
      assert (k = 10) by lia. subst k. rewrite Hs in E2.
      vm_compute in E2. exfalso. apply E2. reflexivity. }
    exists (k + 1). rewrite Hs, Z.pow_add_r by lia.
    change (2 ^ 1) with 2. rewrite Hs in E1. repeat split; lia.
  - destruct (Iq.Qlt_bool dx 0 && Qgt_bool dy 0);
      [|exists k; rewrite Hs; specialize (Hmono k Hk); repeat split; lia].
    cbv zeta.
    assert (Hhalf : 0 < k -> 2 ^ k / 2 = 2 ^ (k - 1)).
    { intros Hpos. replace k with (k - 1 + 1) at 1 by lia.
      rewrite Z.pow_add_r by lia. change (2 ^ 1) with 2.
      apply Z.div_mul. lia. }
    destruct (size s / 2 >=? 64) eqn:E;
      [|exists k; rewrite Hs; specialize (Hmono k Hk); repeat split; lia].
    rewrite Z.geb_leb in E. apply Z.leb_le in E.
    cbn [size set_touch set_size]. rewrite Hs, Hhalf in * by lia.
    assert (Hk1 : 6 <= k - 1).
    { destruct (Z_le_gt_dec 6 (k - 1)) as [|Hlt]; [assumption|].
      assert (k = 6) by lia. subst k. vm_compute in E.
      exfalso. apply E. reflexivity. }
    exists (k - 1). specialize (Hmono (k - 1) ltac:(lia)).
    repeat split; lia.
Qed.

Lemma fft_drag_keeps_power_of_two_witness :
  exists k',
    6 <= k' <= 10 /\
    size (drag_fft_size 12 (-12) spectrum_48k) = 2 ^ k'.
Proof.
  assert (H1 : 6 <= 9 <= 10) by lia.
  assert (H2 : size spectrum_48k = 2 ^ 9) by (vm_compute; reflexivity).
  destruct (fft_drag_keeps_power_of_two 12 (-12) spectrum_48k 9 H1 H2)
    as (k' & Hk & Hs & _).
  exists k'. split; [exact Hk | exact Hs].
Defined.

Lemma touch_fft_size_step (fdiv : Z -> Z -> Q) (x y : Q) (sz : Z) :
  sz <= Iq.w_spectra ->
  fst (handle_touch_fft_size_adjustment fdiv x y sz) <= Iq.w_spectra.
Proof.
  intros Hsz. unfold handle_touch_fft_size_adjustment.
  destruct (Iq.Qlt_bool x (fdiv Iq.w_main 3)).
  - destruct (sz >? 64) eqn:E; cbn [fst]; [|exact Hsz].
    rewrite Z.gtb_ltb in E. apply Z.ltb_lt in E.
    assert (sz / 2 <= sz) by (apply Z.div_le_upper_bound; lia). lia.
  - destruct (Iq.Qlt_bool x (fdiv (2 * Iq.w_main) 3)); cbn [fst].
    + vm_compute. discriminate.
    + destruct ((sz <? 1024) && (sz * 2 <=? Iq.w_spectra)) eqn:E;
        cbn [fst]; [|exact Hsz].
      apply andb_true_iff in E. destruct E as [_ E].
      apply Z.leb_le in E. exact E.
Qed.

(** X11: the size set at start-up by the clamp and then changed by any
    number of touches in the FFT-size zones is never larger than the
    display width, whatever size was configured and wherever the touches
    land. *)
Theorem touch_fft_size_within_width (fdiv : Z -> Z -> Q)
  (configured : Z) (touches : list (Q * Q)) :
  fold_left
    (fun sz xy =>
       fst (handle_touch_fft_size_adjustment fdiv (fst xy) (snd xy) sz))
    touches (fst (Iq.clamp_size Iq.w_spectra configured))
  <= Iq.w_spectra.
Proof.
  assert (H0 : fst (Iq.clamp_size Iq.w_spectra configured) <= Iq.w_spectra)
    by (apply IqFacts.clamp_size_le; vm_compute; discriminate).
  revert H0. generalize (fst (Iq.clamp_size Iq.w_spectra configured)).
  induction touches as [|[x y] rest IH]; intros sz Hsz; cbn [fold_left].
  - exact Hsz.
  - apply IH. cbn [fst snd]. apply touch_fft_size_step, Hsz.
Qed.

(* ----------------------------------------------------------------- *)
(** *** The sample rate under touch *)

(** X12: a touch in the sample-rate zones never takes the rate below
    24 kHz (nor to 4096 kHz or above) if it was not there before; so the
    half-span [make] chooses for the new rate is smaller than the new
    half-bandwidth. *)
Theorem touch_sample_rate_bounds (fdiv : Z -> Z -> Q) (x y : Q)
  (source_rtl : bool) (rate : Z) :
  24000 <= rate < 4096000 ->
  let rate' :=
    fst (handle_touch_sample_rate_adjustment fdiv x y source_rtl rate) in
  24000 <= rate' < 4096000 /\
  forall self : Iq.Graticule,
    Iq.sample_rate self = rate' ->
    exists c,
      Iq.for_xtick_max Iq.xtick_candidates (Iq.srate2 self) None = Some c /\
      (inject_Z c < Iq.srate2 self)%Q.
Proof.
  intros Hrate rate'.
  assert (Hb : 24000 <= rate' < 4096000).
  { subst rate'. unfold handle_touch_sample_rate_adjustment.
    destruct (Iq.Qlt_bool x (fdiv Iq.w_main 3)).
    - destruct (rate >? 48000) eqn:E; cbn [fst]; [|exact Hrate].
      rewrite Z.gtb_ltb in E. apply Z.ltb_lt in E.
      assert (24000 <= rate / 2) by (apply Z.div_le_lower_bound; lia).
      assert (rate / 2 <= rate) by (apply Z.div_le_upper_bound; lia). lia.
    - destruct (Iq.Qlt_bool x (fdiv (2 * Iq.w_main) 3)); cbn [fst].
      + destruct source_rtl; lia.
      + destruct (rate <? 2048000) eqn:E; cbn [fst]; [|exact Hrate].
        apply Z.ltb_lt in E. lia. }
  split; [exact Hb|]. intros self Hself.
  rewrite IqFacts.for_xtick_max_hz; cbv zeta. eexists. split; [reflexivity|].
  apply IqFacts.below_nyquist. rewrite Hself.
  repeat match goal with
         | |- context [?a <? rate'] =>
             let E := fresh "E" in
             destruct (a <? rate') eqn:E;
             [apply Z.ltb_lt in E | apply Z.ltb_ge in E]
         end; lia.
Qed.

Lemma touch_sample_rate_bounds_witness :
  24000 <= fst (handle_touch_sample_rate_adjustment exact_division
                  100 0 false 96000) < 4096000.
Proof.
  assert (H : 24000 <= 96000 < 4096000) by lia.
  exact (proj1 (touch_sample_rate_bounds exact_division 100 0 false 96000 H)).
Defined.

(* ----------------------------------------------------------------- *)
(** *** The help phase under touch *)

(** X13: a touch in the menu zones keeps [info_phase] one of 0, 1, 2, 3,
    the values the main loop has a help screen for. *)
Theorem touch_menu_phase_in_range (fdiv : Z -> Z -> Q) (x y : Q)
  (info_phase : Z) (fb : touch_feedback) :
  0 <= info_phase <= 3 ->
  0 <= fst (handle_touch_menu_navigation fdiv x y info_phase fb) <= 3.
Proof.
  intros Hp. unfold handle_touch_menu_navigation.
  destruct (Iq.Qlt_bool x (fdiv Iq.w_main 3)).
  - destruct (info_phase >? 0); cbn [fst]; [|exact Hp].
    pose proof (Z.mod_pos_bound (info_phase - 1) 4). lia.
  - destruct (Qgt_bool x (fdiv (2 * Iq.w_main) 3)).
    + destruct (info_phase <? 3); cbn [fst]; [|exact Hp].
      pose proof (Z.mod_pos_bound (info_phase + 1) 4). lia.
    + destruct (info_phase >? 0); cbn [fst]; lia.
Qed.

Lemma touch_menu_phase_in_range_witness :
  0 <= fst (handle_touch_menu_navigation exact_division 1000 0 2
              (mkFeedback NoFeedback 0)) <= 3.
Proof.
  assert (H : 0 <= 2 <= 3) by lia.
  exact (touch_menu_phase_in_range exact_division 1000 0 2
           (mkFeedback NoFeedback 0) H).
Defined.

(* ----------------------------------------------------------------- *)
(** *** Long presses *)

Lemma Qlt_bool_false (a b : Q) : Iq.Qlt_bool a b = false -> (b <= a)%Q.
Proof.
  unfold Iq.Qlt_bool. intros H. apply negb_false_iff in H.
  apply Qle_bool_iff. exact H.
Qed.

Lemma exact_division_mono (a b c d : Z) :
  0 < b -> 0 < d -> a * d <= c * b ->
  (exact_division a b <= exact_division c d)%Q.
Proof.
  intros Hb Hd H. unfold exact_division, Qle, Qdiv, Qmult, Qinv, inject_Z.
  destruct b as [|pb|pb]; try lia. destruct d as [|pd|pd]; try lia.
  cbn -[Z.mul]. nia.
Qed.

Lemma exact_division_int (n : Z) : (exact_division n 1 == inject_Z n)%Q.
Proof.
  unfold exact_division, Qeq, Qdiv, Qmult, Qinv, inject_Z. cbn -[Z.mul]. lia.
Qed.

Section LongPress.

Variable fdiv : Z -> Z -> Q.

(** Float division rounds to the nearest float, so it preserves the order
    of the exact quotients, and dividing by 1 changes nothing. *)
Hypothesis fdiv_mono :
  forall a b c d, 0 < b -> 0 < d -> a * d <= c * b ->
                  (fdiv a b <= fdiv c d)%Q.
Hypothesis fdiv_int :
  forall n, Z.abs n <= 2 ^ 53 -> (fdiv n 1 == inject_Z n)%Q.

Lemma two_thirds_below_three_quarters (waterfall : bool) :
  (fdiv (2 * h_2d waterfall) 3 < fdiv (3 * h_2d waterfall) 4)%Q.
Proof.
  destruct waterfall; cbn [h_2d].
  - apply Qle_lt_trans with (inject_Z 178).
    + rewrite <- (fdiv_int 178) by (vm_compute; discriminate).
      apply fdiv_mono; lia.
    + apply Qlt_le_trans with (inject_Z 199).
      * unfold Qlt, inject_Z; cbn. lia.
      * rewrite <- (fdiv_int 199) by (vm_compute; discriminate).
        apply fdiv_mono; lia.
  - apply Qle_lt_trans with (inject_Z 854).
    + rewrite <- (fdiv_int 854) by (vm_compute; discriminate).
      apply fdiv_mono; lia.
    + apply Qlt_le_trans with (inject_Z 960).
      * unfold Qlt, inject_Z; cbn. lia.
      * rewrite <- (fdiv_int 960) by (vm_compute; discriminate).
        apply fdiv_mono; lia.
Qed.

(** X14: a long press only ever reaches menu navigation, the quick
    settings, the gain adjustment or the sample-rate adjustment.  The
    other branches of the chain (display mode, FFT size, buffers,
    waterfall palette and accumulation, pulse clip, skip, lagfix, help
    screen) are never taken, at either height of the 2d display, wherever
    the press lands. *)
Theorem long_press_reaches_four_handlers (waterfall : bool) (current_y : Q) :
  In (long_press fdiv (h_2d waterfall) current_y)
     [MenuNavigation; QuickSettings; GainAdjustment; SampleRateAdjustment].
Proof.
  unfold long_press.
  destruct (Iq.Qlt_bool current_y (fdiv (h_2d waterfall) 3));
    [left; reflexivity|].
  destruct (Qgt_bool current_y (fdiv (2 * h_2d waterfall) 3)) eqn:Eq;
    [right; left; reflexivity|].
  destruct (Iq.Qlt_bool current_y (fdiv (h_2d waterfall) 2));
    [right; right; left; reflexivity|].
  destruct (Iq.Qlt_bool current_y (fdiv (3 * h_2d waterfall) 4)) eqn:Es;
    [right; right; right; left; reflexivity|].
  exfalso. apply Qlt_bool_false in Eq, Es.
  pose proof (two_thirds_below_three_quarters waterfall) as Hlt.
  apply (Qlt_not_le _ _ Hlt). apply Qle_trans with current_y; assumption.
Qed.

End LongPress.

Lemma long_press_reaches_four_handlers_witness :
  In (long_press exact_division (h_2d true) 260)
     [MenuNavigation; QuickSettings; GainAdjustment; SampleRateAdjustment].
Proof.
  exact (long_press_reaches_four_handlers exact_division
           exact_division_mono (fun n _ => exact_division_int n) true 260).
Defined.

End UiFacts.

(* ================================================================= *)
(** ** More on Graticule.make *)

Module MakeFacts.
Import Iq IqFacts.
Open Scope Z_scope.

Lemma py_range_10_length_eq (start stop : Z) :
  length (py_range start stop 10)
  = Z.to_nat ((stop - start + 10 - 1) / 10).
Proof. unfold py_range. rewrite length_map, length_seq. reflexivity. Qed.

Lemma py_range_10_last (start stop top : Z) (l : list Z) :
  rev (py_range start stop 10) = top :: l ->
  top = start + 10 * ((stop - start + 10 - 1) / 10 - 1) /\
  1 <= (stop - start + 10 - 1) / 10.
Proof.
  unfold py_range.
  destruct (Z.to_nat ((stop - start + 10 - 1) / 10)) as [|n] eqn:En.
  - cbn. discriminate.
  - rewrite seq_S, map_app, rev_app_distr. cbn [map rev app Nat.add].
    intros H. apply (f_equal (hd 0)) in H. cbn [hd] in H.
    split; [rewrite <- H; f_equal; lia | lia].
Qed.

(** What [make] returns, field by field. *)
Lemma make_shape (self : Graticule) :
  sp_min self < sp_max self -> sample_rate self <> 0 ->
  exists top l x,
    rev (py_range (sp_min self) (sp_max self) 10) = top :: l /\
    for_xtick_max xtick_candidates (srate2 self) None = Some x /\
    make self =
    Returns
      (mkGrid
         (map (fun attn =>
                 (attn,
                  inject_Z (h self)
                  - (inject_Z (attn - sp_min self)
                     * (inject_Z (h self)
                        / inject_Z (sp_max self - sp_min self)) + 3))%Q)
              (py_range (sp_min self) (sp_max self) 10))
         top x
         (map (fun offset =>
                 (offset,
                  offset * (inject_Z (w self) / frq_range self)
                  + inject_Z (w self) / 2)%Q)
              [ - inject_Z x; - inject_Z x / 2; 0;
                inject_Z x / 2; inject_Z x ]%Q)).
Proof.
  intros Hrange Hrate. unfold make.
  destruct (sp_max self - sp_min self =? 0) eqn:E0;
    [apply Z.eqb_eq in E0; lia|].
  destruct (rev (py_range (sp_min self) (sp_max self) 10)) as [|top l] eqn:Er.
  { pose proof (py_range_10_first _ _ Hrange) as Hin.
    apply in_rev in Hin. rewrite Er in Hin. destruct Hin. }
  destruct (Qeq_bool (frq_range self) 0) eqn:Ef.
  { apply Qeq_bool_iff in Ef. exfalso. apply Hrate.
    unfold frq_range, Qeq, Qdiv, Qmult, Qinv, inject_Z in Ef; cbn in Ef. lia. }
  rewrite for_xtick_max_hz; cbv zeta.
  eexists top, l, _. split; [reflexivity|]. split; reflexivity.
Qed.

(** X15: how [make] ends, by the state of the graticule.  Equal limits:
    [ZeroDivisionError] (the scale).  Maximum below minimum: no line is
    drawn and the label of the last line fails, [UnboundLocalError].  A
    valid range at sample rate 0: [ZeroDivisionError] (pixels per kHz).
    A valid range at any other sample rate: a surface is returned. *)
Theorem make_outcomes (self : Graticule) :
  (sp_max self = sp_min self -> make self = Raises ZeroDivisionError self) /\
  (sp_max self < sp_min self -> make self = Raises UnboundLocalError self) /\
  (sp_min self < sp_max self -> sample_rate self = 0 ->
   make self = Raises ZeroDivisionError self) /\
  (sp_min self < sp_max self -> sample_rate self <> 0 ->
   exists gr, make self = Returns gr).
Proof.
  split; [|split; [|split]].
  - intros E. unfold make. rewrite E, Z.sub_diag. reflexivity.
  - intros Hlt. unfold make.
    destruct (sp_max self - sp_min self =? 0) eqn:E0;
      [apply Z.eqb_eq in E0; lia|].
    assert (En : py_range (sp_min self) (sp_max self) 10 = []).
    { unfold py_range.
      assert (Hq : (sp_max self - sp_min self + 10 - 1) / 10 <= 0).
      { assert ((sp_max self - sp_min self + 10 - 1) / 10 < 1)
          by (apply Z.div_lt_upper_bound; lia). lia. }
      replace (Z.to_nat ((sp_max self - sp_min self + 10 - 1) / 10))
        with 0%nat by lia.
      reflexivity. }
    rewrite En. reflexivity.
  - intros Hrange Hzero. unfold make.
    destruct (sp_max self - sp_min self =? 0) eqn:E0;
      [apply Z.eqb_eq in E0; lia|].
    destruct (rev (py_range (sp_min self) (sp_max self) 10)) as [|top l] eqn:Er.
    { pose proof (py_range_10_first _ _ Hrange) as Hin.
      apply in_rev in Hin. rewrite Er in Hin. destruct Hin. }
    unfold frq_range. rewrite Hzero. reflexivity.
  - intros Hrange Hrate.
    destruct (make_returns self Hrange Hrate) as (gr & Hm & _).
    exists gr. exact Hm.
Qed.

Lemma make_outcomes_witness :
  make (mkGraticule 48000 (-20) (-20) 266 1280)
  = Raises ZeroDivisionError (mkGraticule 48000 (-20) (-20) 266 1280) /\
  make (mkGraticule 48000 (-120) (-20) 266 1280)
  = Raises UnboundLocalError (mkGraticule 48000 (-120) (-20) 266 1280).
Proof.
  split.
  - exact (proj1 (make_outcomes (mkGraticule 48000 (-20) (-20) 266 1280))
             eq_refl).
  - exact (proj1 (proj2 (make_outcomes
                           (mkGraticule 48000 (-120) (-20) 266 1280)))
             eq_refl).
Defined.

(** X16: the dB lines.  On a valid range there are
    [ceil((sp_max - sp_min) / 10)] of them, and the unit "dB" is written
    next to the highest one, which lies below [sp_max] by at most
    10 dB. *)
Theorem make_db_lines (self : Graticule) :
  sp_min self < sp_max self -> sample_rate self <> 0 ->
  exists gr,
    make self = Returns gr /\
    Z.of_nat (length (db_lines gr))
    = (sp_max self - sp_min self + 9) / 10 /\
    unit_at gr = sp_min self + 10 * (Z.of_nat (length (db_lines gr)) - 1) /\
    unit_at gr < sp_max self <= unit_at gr + 10.
Proof.
  intros Hrange Hrate.
  destruct (make_shape self Hrange Hrate) as (top & l & x & Hr & _ & Hm).
  eexists. split; [exact Hm|]. cbn [db_lines unit_at].
  rewrite length_map, py_range_10_length_eq.
  destruct (py_range_10_last _ _ _ _ Hr) as [Htop Hn].
  replace (sp_max self - sp_min self + 10 - 1)
    with (sp_max self - sp_min self + 9) in * by lia.
  set (n := (sp_max self - sp_min self + 9) / 10) in *.
  rewrite Z2Nat.id by lia.
  split; [reflexivity|]. split; [exact Htop|].
  assert (Hlo : 10 * n <= sp_max self - sp_min self + 9)
    by (apply Z.mul_div_le; lia).
  assert (Hhi : sp_max self - sp_min self + 9 < 10 * (n + 1)).
  { pose proof (Z.div_mod (sp_max self - sp_min self + 9) 10 ltac:(lia)).
    pose proof (Z.mod_pos_bound (sp_max self - sp_min self + 9) 10 ltac:(lia)).
    subst n. lia. }
  lia.
Qed.

Lemma make_db_lines_witness :
  exists gr,
    make grat_48k = Returns gr /\
    Z.of_nat (length (db_lines gr)) = 10 /\ unit_at gr = -30.
Proof.
  assert (H1 : sp_min grat_48k < sp_max grat_48k) by (vm_compute; reflexivity).
  assert (H2 : sample_rate grat_48k <> 0) by (vm_compute; discriminate).
  destruct (make_db_lines grat_48k H1 H2) as (gr & Hm & Hn & Hu & _).
  exists gr. split; [exact Hm|].
  assert (E : Z.of_nat (length (db_lines gr)) = 10)
    by (rewrite Hn; reflexivity).
  split; [exact E|]. rewrite Hu, E. reflexivity.
Defined.

(* ----------------------------------------------------------------- *)
(** *** Where the frequency lines fall *)

(** The x coordinate [make] gives the line at [offset] kHz. *)
Lemma line_right_of_edge (o : Q) (self : Graticule) :
  0 < w self -> 0 < sample_rate self ->
  (o * (inject_Z (w self) / frq_range self) + inject_Z (w self) / 2
   < inject_Z (w self))%Q
  <-> Qnum o * 2000 < sample_rate self * QDen o.
Proof.
  intros Hw Hr. destruct o as [on od].
  unfold frq_range, Qlt, Qplus, Qmult, Qdiv, Qinv, inject_Z.
  destruct (w self) as [|pw|pw]; try lia.
  destruct (sample_rate self) as [|pr|pr]; try lia.
  cbn -[Z.mul]. rewrite !Z.mul_1_r. cbn -[Z.mul]. rewrite !Pos2Z.inj_mul.
  split; intros H; nia.
Qed.

Lemma line_left_of_edge (o : Q) (self : Graticule) :
  0 < w self -> 0 < sample_rate self ->
  (0 < o * (inject_Z (w self) / frq_range self) + inject_Z (w self) / 2)%Q
  <-> - (sample_rate self * QDen o) < Qnum o * 2000.
Proof.
  intros Hw Hr. destruct o as [on od].
  unfold frq_range, Qlt, Qplus, Qmult, Qdiv, Qinv, inject_Z.
  destruct (w self) as [|pw|pw]; try lia.
  destruct (sample_rate self) as [|pr|pr]; try lia.
  cbn -[Z.mul]. rewrite !Z.mul_1_r. cbn -[Z.mul]. rewrite !Pos2Z.inj_mul.
  split; intros H; nia.
Qed.

(** X17: on a valid range, with a positive width and sample rate, the five
    frequency lines all fall strictly inside the surface ([0 < x < w])
    exactly when the sample rate is above 20 kHz.  At 20 kHz or less the
    10 kHz half-span is not below the half-bandwidth and the outer lines
    are on or beyond the edges. *)
Theorem frequency_lines_on_surface (self : Graticule) :
  sp_min self < sp_max self ->
  0 < w self ->
  0 < sample_rate self ->
  exists gr,
    make self = Returns gr /\
    length (freq_lines gr) = 5%nat /\
    (20000 < sample_rate self <->
     Forall (fun l => (0 < snd l)%Q /\ (snd l < inject_Z (w self))%Q)
            (freq_lines gr)).
Proof.
  intros Hrange Hw Hr.
  destruct (make_shape self Hrange ltac:(lia)) as (top & l & x & _ & Hx & Hm).
  eexists. split; [exact Hm|]. cbn [freq_lines].
  split; [reflexivity|].
  rewrite for_xtick_max_hz in Hx; cbv zeta in Hx. injection Hx as Hx.
  assert (Hpos : 10 <= x) by (split_rate self; lia).
  assert (Hbelow : 20000 < sample_rate self -> 2000 * x < sample_rate self)
    by (intros H; split_rate self; lia).
  clear Hx Hm. rewrite Forall_forall. split.
  - intros Hfast p Hin. specialize (Hbelow Hfast). cbn [map In] in Hin.
    repeat (destruct Hin as [<-|Hin];
            [cbn [snd]; split;
             [apply line_left_of_edge | apply line_right_of_edge];
             try assumption; cbn -[Z.mul]; lia|]).
    destruct Hin.
  - intros Hall.
    specialize
      (Hall (inject_Z x,
             (inject_Z x * (inject_Z (w self) / frq_range self)
              + inject_Z (w self) / 2)%Q)).
    destruct Hall as [_ Hright].
    { cbn [map In]. do 4 right. left. reflexivity. }
    cbn [snd] in Hright. apply line_right_of_edge in Hright; try assumption.
    cbn -[Z.mul] in Hright. lia.
Qed.

Lemma frequency_lines_on_surface_witness :
  exists gr,
    make grat_48k = Returns gr /\
    Forall (fun l => (0 < snd l)%Q /\ (snd l < inject_Z (w grat_48k))%Q)
           (freq_lines gr).
Proof.
  assert (H1 : sp_min grat_48k < sp_max grat_48k) by (vm_compute; reflexivity).
  assert (H2 : 0 < w grat_48k) by (vm_compute; reflexivity).
  assert (H3 : 0 < sample_rate grat_48k) by (vm_compute; reflexivity).
  destruct (frequency_lines_on_surface grat_48k H1 H2 H3)
    as (gr & Hm & _ & Hiff).
  exists gr. split; [exact Hm|].
  apply Hiff. vm_compute. reflexivity.
Defined.

(* ----------------------------------------------------------------- *)
(** *** A new range and the same frequency lines *)

(** X18: [set_range] followed by [make].  After a valid request the dB
    lines start at the new minimum, 10 dB apart, below the new maximum,
    and the frequency lines and the half-span are those of the surface
    made before the request: the dB range has no part in them. *)
Theorem range_change_keeps_frequency_lines (self : Graticule) (lo hi : Z) :
  sp_min self < sp_max self ->
  sample_rate self <> 0 ->
  lo < hi ->
  exists self' gr gr',
    make self = Returns gr /\
    set_range self lo hi = Returns self' /\
    make self' = Returns gr' /\
    map fst (db_lines gr') = py_range lo hi 10 /\
    xtick_max gr' = xtick_max gr /\
    freq_lines gr' = freq_lines gr.
Proof.
  intros Hrange Hrate Hnew.
  destruct (make_shape self Hrange Hrate) as (top & l & x & _ & Hx & Hm).
  unfold set_range.
  destruct (hi >? lo) eqn:E;
    [|rewrite Z.gtb_ltb in E; apply Z.ltb_ge in E; lia].
  cbn [negb]; cbv zeta.
  set (self' := mkGraticule _ _ _ _ _).
  destruct (make_shape self') as (top' & l' & x' & _ & Hx' & Hm');
    [exact Hnew | exact Hrate |].
  assert (Ex : x' = x).
  { change (srate2 self') with (srate2 self) in Hx'. congruence. }
  subst x'.
  eexists self', _, _. split; [exact Hm|]. split; [reflexivity|].
  split; [exact Hm'|]. cbn [db_lines xtick_max freq_lines].
  split; [|split; reflexivity].
  rewrite map_map; cbn [fst]. apply map_id.
Qed.

Lemma range_change_keeps_frequency_lines_witness :
  exists self' gr',
    set_range grat_48k (-100) (-40) = Returns self' /\
    make self' = Returns gr' /\
    map fst (db_lines gr') = [-100; -90; -80; -70; -60; -50] /\
    xtick_max gr' = 20.
Proof.
  assert (H1 : sp_min grat_48k < sp_max grat_48k) by (vm_compute; reflexivity).
  assert (H2 : sample_rate grat_48k <> 0) by (vm_compute; discriminate).
  assert (H3 : -100 < -40) by (vm_compute; reflexivity).
  destruct (range_change_keeps_frequency_lines grat_48k (-100) (-40) H1 H2 H3)
    as (self' & gr & gr' & Hm & Hs & Hm' & Hdb & Hx & _).
  exists self', gr'. split; [exact Hs|]. split; [exact Hm'|].
  split; [rewrite Hdb; reflexivity|].
  rewrite Hx. assert (E : Returns gr = make grat_48k) by (symmetry; exact Hm).
  vm_compute in E. injection E as ->. reflexivity.
Defined.

End MakeFacts.
